(** * rna: emit plugin, sass resolver and transform pipeline

    A shallow embedding of
      - packages/esbuild-plugin-emit/lib/index.js
      - packages/postcss-dart-sass/lib/sassResolver.js
      - the transform pipeline (loadSourcemap, transform, createPipeline,
        pipe, finalize)
    A JavaScript string is embedded as the [string] of the bytes of its
    UTF-8 encoding. The separators the code inspects ('/', '.', '_', '?',
    '&', '=', '@', '~', ',') are one byte each and never occur inside the
    encoding of another character; white space and the units of UTF-16
    are recognised on the encoding where the code depends on them.
    [undefined]/[null] are embedded as [None]. *)

From Stdlib Require Import String Ascii.
From stdpp Require Import base list strings gmap.

(** ** JavaScript string primitives used by the sources *)

Module Js.

(** [s.includes(c)] for a one-character [c]. *)
Fixpoint includes (c : ascii) (s : string) : bool :=
  match s with
  | EmptyString => false
  | String a s' => if Ascii.eqb a c then true else includes c s'
  end.

(** [s.split(c)] for a one-character separator: never empty. *)
Fixpoint split (c : ascii) (s : string) : list string :=
  match s with
  | EmptyString => [EmptyString]
  | String a s' =>
      if Ascii.eqb a c then EmptyString :: split c s'
      else match split c s' with
           | h :: t => String a h :: t
           | [] => [String a EmptyString]
           end
  end.

(** The text before the first [c], and the text after it when there is
    one. *)
Fixpoint cut (c : ascii) (s : string) : string * option string :=
  match s with
  | EmptyString => (EmptyString, None)
  | String a s' =>
      if Ascii.eqb a c then (EmptyString, Some s')
      else let '(h, t) := cut c s' in (String a h, t)
  end.

(** [s.startsWith(p)]. *)
Definition startsWith (s p : string) : bool := String.prefix p s.

(** [s.endsWith(p)]. *)
Definition endsWith (s p : string) : bool :=
  if Nat.leb (String.length p) (String.length s)
  then String.eqb (String.substring (String.length s - String.length p)
                                    (String.length p) s) p
  else false.

(** Truthiness of a string-or-undefined value. *)
Definition truthy (v : option string) : bool :=
  match v with
  | Some s => negb (String.eqb s EmptyString)
  | None => false
  end.

(** [a || b] on string-or-undefined values. *)
Definition or (a b : option string) : option string :=
  if truthy a then a else b.

(** The line feed character, as a string. *)
Definition lineFeed : string := String "010" EmptyString.

End Js.

(** ** @chialab/node-resolve: search-parameter helpers *)

Module NodeResolve.

(** Modelled from the spec: [getSearchParams], [hasSearchParam] and
    [appendSearchParam] of @chialab/node-resolve are imported by the emit
    plugin but are not part of the sources at hand. The spec describes the
    markers as suffixes of the specifier, [?emit=file] and
    [?emit=chunk&transform=<url-encoded JSON>], that the plugin strips
    again on resolve: the search part starts at the first '?', parameters
    are separated by '&', a parameter's name ends at its first '='. *)
Definition searchParams (source : string) : list (string * option string) :=
  match snd (Js.cut "?" source) with
  | None => []
  | Some query => map (Js.cut "=") (Js.split "&" query)
  end.

(** Modelled from the spec: the specifier with its markers stripped. *)
Definition searchPath (source : string) : string := fst (Js.cut "?" source).

(** Modelled from the spec: a specifier carries parameter [param] when some
    parameter of its search part has that name. *)
Definition hasSearchParam (source param : string) : bool :=
  existsb (fun p => String.eqb (fst p) param) (searchParams source).

Section Append.
(** The url-encoding of a parameter value (JavaScript's own). *)
Variable encodeURIComponent : string -> string.

(** What the helper answers for a specifier that carries the parameter
    already: the spec describes the markers of specifiers that carry none
    yet, and says nothing of this case. *)
Variable replaceSearchParam : string -> string -> string -> string.

(** Modelled from the spec: on a specifier that does not carry the
    parameter yet, the marker is appended, after '?' when the specifier
    has no search part and after '&' when it has one. *)
Definition appendSearchParam (source param value : string) : string :=
  if hasSearchParam source param then replaceSearchParam source param value
  else source +:+ (if Js.includes "?" source then "&" else "?")
              +:+ param +:+ "=" +:+ encodeURIComponent value.
End Append.

End NodeResolve.

(** ** packages/esbuild-plugin-emit/lib/index.js *)

Module EmitPlugin.
Import NodeResolve.

Section Emit.
Variable encodeURIComponent : string -> string.
Variable replaceSearchParam : string -> string -> string -> string.

(** [emitFile(source)] *)
Definition emitFile (source : string) : string :=
  if hasSearchParam source "emit" then source
  else appendSearchParam encodeURIComponent replaceSearchParam
         source "emit" "file".

(** [EmitTransformOptions] and [JSON.stringify] on it. *)
Variable EmitTransformOptions : Type.
Variable JSON_stringify : EmitTransformOptions -> string.

End Emit.

(** One entry of [result.metafile.outputs]: only [entryPoint] is read. *)
Record Output := { entryPoint : option string }.

(** [result.metafile.outputs]: the keys in [Object.keys] order, each with
    its value. *)
Definition Outputs := list (string * Output).

(** [outputs[output]] *)
Fixpoint get (outputs : Outputs) (output : string) : option Output :=
  match outputs with
  | [] => None
  | (k, o) :: rest => if String.eqb k output then Some o else get rest output
  end.

(** [outputs[output].entryPoint] for a key of [outputs]. *)
Definition entryPointOf (outputs : Outputs) (output : string)
  : option string :=
  match get outputs output with
  | Some o => entryPoint o
  | None => None
  end.

Section OnLoad.
(** [path.resolve] of one argument. *)
Variable path_resolve : string -> string.

(** The third callback of the chain: [filePath === path.resolve(entryPoint)]. *)
Definition isEntry (outputs : Outputs) (filePath output : string) : bool :=
  match entryPointOf outputs output with
  | Some e => String.eqb filePath (path_resolve e)
  | None => false
  end.

(** The value assigned to [filePath] when the build result has a
    metafile: [filter].[filter].[find] [||] [outputFiles[0]]. *)
Definition selectOutput (outputs : Outputs) (filePath : string)
  : option string :=
  let outputFiles := map fst outputs in
  Js.or
    (List.find (isEntry outputs filePath)
       (List.filter (fun output => Js.truthy (entryPointOf outputs output))
          (List.filter (fun output => negb (Js.endsWith output ".map"))
             outputFiles)))
    (head outputFiles).

(** [filePath] as it is handed to [readFile]: reassigned only under
    [if (result.metafile)]. *)
Definition loadedPath (metafile : option Outputs) (filePath : string)
  : option string :=
  match metafile with
  | Some outputs => selectOutput outputs filePath
  | None => Some filePath
  end.
End OnLoad.

End EmitPlugin.

(** ** Node's [path] module (POSIX flavour), as far as the resolver uses it *)

Module path.

Definition slash : ascii := "/".
Definition dot : ascii := ".".

Definition chars (s : string) : list ascii := list_ascii_of_string s.
Definition text (l : list ascii) : string := string_of_list_ascii l.

Definition isSlash (a : ascii) : bool := Ascii.eqb a slash.

(** Drop the longest prefix whose characters satisfy [p]. *)
Fixpoint dropWhile {A} (p : A -> bool) (l : list A) : list A :=
  match l with
  | [] => []
  | a :: l' => if p a then dropWhile p l' else l
  end.

Fixpoint takeWhile {A} (p : A -> bool) (l : list A) : list A :=
  match l with
  | [] => []
  | a :: l' => if p a then a :: takeWhile p l' else []
  end.

(** [path.basename(p)]: the last portion of [p], trailing separators
    ignored. *)
Definition basename (p : string) : string :=
  let r := dropWhile isSlash (rev (chars p)) in
  text (rev (takeWhile (fun a => negb (isSlash a)) r)).

(** [path.dirname(p)]: the scan runs from the last character down to the
    second one; [end] is the position of the separator that precedes the
    last portion. *)
Definition dirname (p : string) : string :=
  match chars p with
  | [] => "."
  | c :: t =>
      let hasRoot := isSlash c in
      let r1 := dropWhile isSlash (rev t) in
      let r2 := dropWhile (fun a => negb (isSlash a)) r1 in
      match r2 with
      | [] => if hasRoot then "/" else "."
      | _ :: before =>
          if hasRoot && Nat.eqb (List.length r2) 1 then "//"
          else text (c :: rev before)
      end
  end.

(** Position of the last [c] of [l], if any. *)
Fixpoint lastIndex (c : ascii) (l : list ascii) : option nat :=
  match l with
  | [] => None
  | a :: l' =>
      match lastIndex c l' with
      | Some i => Some (S i)
      | None => if Ascii.eqb a c then Some 0 else None
      end
  end.

(** [path.extname(p)]: from the last '.' of the last portion to its end;
    empty when there is no '.', when the only '.' is the first character,
    and for the portion [..]. *)
Definition extname (p : string) : string :=
  let base := basename p in
  if String.eqb base ".." then ""
  else match lastIndex dot (chars base) with
       | None | Some 0 => ""
       | Some d => text (drop d (chars base))
       end.

(** [normalizeString]: the segments of a path with "." and empty segments
    removed and ".." resolved; [acc] is the result so far, last segment
    first. *)
Fixpoint normalizeSegments (allowAboveRoot : bool) (segs acc : list string)
  : list string :=
  match segs with
  | [] => rev acc
  | seg :: rest =>
      if String.eqb seg "" || String.eqb seg "." then
        normalizeSegments allowAboveRoot rest acc
      else if String.eqb seg ".." then
        match acc with
        | last :: acc' =>
            if String.eqb last ".." then
              normalizeSegments allowAboveRoot rest
                (if allowAboveRoot then ".." :: acc else acc)
            else normalizeSegments allowAboveRoot rest acc'
        | [] =>
            normalizeSegments allowAboveRoot rest
              (if allowAboveRoot then [".."] else [])
        end
      else normalizeSegments allowAboveRoot rest (seg :: acc)
  end.

(** [segments.join('/')] *)
Fixpoint joinWith (sep : string) (l : list string) : string :=
  match l with
  | [] => ""
  | [s] => s
  | s :: l' => s +:+ sep +:+ joinWith sep l'
  end.

(** [path.normalize(p)] *)
Definition normalize (p : string) : string :=
  match chars p with
  | [] => "."
  | c :: _ =>
      let isAbsolute := isSlash c in
      let trailingSeparator :=
        match rev (chars p) with
        | l :: _ => isSlash l
        | [] => false
        end in
      let body :=
        joinWith "/" (normalizeSegments (negb isAbsolute) (Js.split slash p) []) in
      if String.eqb body "" then
        if isAbsolute then "/" else if trailingSeparator then "./" else "."
      else
        let body' := if trailingSeparator then body +:+ "/" else body in
        if isAbsolute then "/" +:+ body' else body'
  end.

(** [path.join(a, b)]: the non-empty arguments joined by '/', then
    normalized. *)
Definition join (a b : string) : string :=
  match String.eqb a "", String.eqb b "" with
  | true, true => "."
  | true, false => normalize b
  | false, true => normalize a
  | false, false => normalize (a +:+ "/" +:+ b)
  end.

End path.

(** ** Completions: a JavaScript call returns a value or throws *)

Inductive exn : Type :=
| TypeError
| SyntaxError
| ResolveError
| IOError
| OtherError (message : string).

Inductive completion (A : Type) : Type :=
| Return (a : A)
| Throw (e : exn).
Arguments Return {A} a.
Arguments Throw {A} e.

#[global] Instance completion_ret : MRet completion := fun A a => Return a.

#[global] Instance completion_bind : MBind completion := fun A B k c =>
  match c with
  | Return a => k a
  | Throw e => Throw e
  end.

(** [try { c } catch { h }] *)
Definition try_catch {A} (c : completion A) (h : exn -> completion A)
  : completion A :=
  match c with
  | Return a => Return a
  | Throw e => h e
  end.

(** ** packages/esbuild-plugin-emit/lib/index.js: the helpers around the
       hooks *)

Module EmitSetup.

(** [v === s] for a string-or-undefined [v]. *)
Definition equals (v : option string) (s : string) : bool :=
  match v with
  | Some s' => String.eqb s' s
  | None => false
  end.

(** [getBaseUrl(build)], on [platform] and [format] of
    [build.initialOptions]. *)
Definition getBaseUrl (platform format : option string) : string :=
  if equals platform "browser" && negb (equals format "esm")
  then "document.baseURI"
  else if equals platform "node" && negb (equals format "esm")
       then "'file://' + __filename"
       else "import.meta.url".

(** A character of the class [a-zA-Z0-9]. *)
Definition isAlphanumeric (a : ascii) : bool :=
  let n := nat_of_ascii a in
  (Nat.leb 48 n && Nat.leb n 57) || (Nat.leb 65 n && Nat.leb n 90)
  || (Nat.leb 97 n && Nat.leb n 122).

(** The UTF-16 units a byte of the encoding stands for: one for a
    one-byte character and for the first byte of a character of two or
    three bytes, two (a surrogate pair) for the first byte of a character
    of four bytes, none for a continuation byte. *)
Definition unitsOf (a : ascii) : nat :=
  let n := nat_of_ascii a in
  if Nat.ltb n 128 then 1
  else if Nat.ltb n 192 then 0
  else if Nat.ltb n 240 then 1
  else 2.

(** [s.length]: the number of UTF-16 units of the text. *)
Fixpoint unitLength (s : string) : nat :=
  match s with
  | EmptyString => 0
  | String a s' => unitsOf a + unitLength s'
  end.

(** [n] underscores. *)
Fixpoint underscores (n : nat) : string :=
  match n with
  | 0 => EmptyString
  | S n' => String "_" (underscores n')
  end.

(** [s.replace(/[^a-zA-Z0-9]/g, '_')]: the pattern has no [u] flag, so
    each UTF-16 unit outside the class becomes one underscore. *)
Fixpoint sanitize (s : string) : string :=
  match s with
  | EmptyString => EmptyString
  | String a s' =>
      if isAlphanumeric a then String a (sanitize s')
      else underscores (unitsOf a) +:+ sanitize s'
  end.

(** [specifier || entryPoint] *)
Definition orElse (specifier : option string) (entryPoint : string)
  : string :=
  match specifier with
  | Some s => if Js.truthy specifier then s else entryPoint
  | None => entryPoint
  end.

(** The object [createImportStatement] returns. *)
Record ImportStatement : Type := { identifier : string; statement : string }.

(** [createImportStatement(entryPoint, specifier)] *)
Definition createImportStatement (entryPoint : string)
  (specifier : option string) : ImportStatement :=
  let identifier :=
    "_" +:+ sanitize (fst (Js.cut "?" (orElse specifier entryPoint))) in
  {| identifier := identifier;
     statement := "import " +:+ identifier +:+ " from '" +:+ entryPoint +:+ "';" |}.

(** [code.indexOf(c)] for a one-character [c]; [None] is -1. *)
Fixpoint indexOf (c : ascii) (code : string) : option nat :=
  match code with
  | EmptyString => None
  | String a code' =>
      if Ascii.eqb a c then Some 0
      else match indexOf c code' with
           | Some i => Some (S i)
           | None => None
           end
  end.

(** The call [prependImportStatement] makes on [magicCode]. *)
Inductive MagicEdit : Type :=
| prepend (content : string)
| appendRight (index : nat) (content : string).

(** [magicCode.toString()] after one such call on a buffer created from
    [code] and not edited otherwise: [prepend] puts the content in front,
    [appendRight] puts it at [index] of the original text. *)
Definition toString (code : string) (edit : MagicEdit) : string :=
  match edit with
  | prepend content => content +:+ code
  | appendRight index content =>
      String.substring 0 index code +:+ content
        +:+ String.substring index (String.length code - index) code
  end.

(** [prependImportStatement({ magicCode, code }, entryPoint, specifier)]:
    the returned object and the edit made on [magicCode]. *)
Definition prependImportStatement (code entryPoint : string)
  (specifier : option string) : ImportStatement * MagicEdit :=
  let r := createImportStatement entryPoint specifier in
  let line := statement r +:+ Js.lineFeed in
  if Js.startsWith code "#!" then
    (r, appendRight (match indexOf "010" code with
                     | Some i => i + 1
                     | None => 0
                     end) line)
  else (r, prepend line).

(** A value of a build option. *)
Inductive value : Type :=
| Undefined
| Bool (b : bool)
| Str (s : string)
| Strs (l : list string)
| Json (text : string).

(** The [config] of the sub-build:
    [{ ...options, ...pluginData, entryPoints: [filePath],
       outfile: undefined, outdir, metafile: true }]. *)
Definition chunkConfig (options pluginData : gmap string value)
  (filePath outdir : string) : gmap string value :=
  <["metafile" := Bool true]>
    (<["outdir" := Str outdir]>
       (<["outfile" := Undefined]>
          (<["entryPoints" := Strs [filePath]]> (pluginData ∪ options)))).

End EmitSetup.

(** ** packages/postcss-dart-sass/lib/sassResolver.js *)

Module SassResolver.

Section Resolver.
(** [CSS_EXTENSIONS] of @chialab/node-resolve: the configured stylesheet
    extensions, in their order. *)
Variable CSS_EXTENSIONS : list string.

(** [path.join(path.dirname(r), `_${path.basename(r)}`)] *)
Definition partialOf (r : string) : string :=
  path.join (path.dirname r) ("_" +:+ path.basename r).

(** The [for] loop of [alternatives]: [n] iterations are left, [i] is the
    loop counter; [results[i]] undefined makes [path.dirname] throw. *)
Fixpoint pushPartials (n i : nat) (results : list string)
  : completion (list string) :=
  match n with
  | 0 => Return results
  | S n' =>
      match results !! i with
      | Some r => pushPartials n' (S i) (results ++ [partialOf r])
      | None => Throw TypeError
      end
  end.

(** [path.basename(url)[0] !== '_'] *)
Definition notPartial (url : string) : bool :=
  match path.basename url with
  | String a _ => negb (Ascii.eqb a "_")
  | EmptyString => true
  end.

(** [alternatives(url)] *)
Definition alternatives (url : string) : completion (list string) :=
  let results :=
    if negb (String.eqb (path.extname url) "") then [url]
    else map (fun ext => url +:+ ext) CSS_EXTENSIONS in
  if notPartial url then pushPartials (length results) 0 results
  else Return results.

(** [url.replace(/^(~|package:)/, '')] under [url.match(/^(~|package:)/)] *)
Definition stripPrefix (url : string) : string :=
  if Js.startsWith url "~" then String.substring 1 (String.length url - 1) url
  else if Js.startsWith url "package:"
       then String.substring 8 (String.length url - 8) url
       else url.

(** [url[0] === '@'] *)
Definition isScoped (url : string) : bool :=
  match url with
  | String a _ => Ascii.eqb a "@"
  | EmptyString => false
  end.

(** The candidates [toCheck] of [nodeResolver], for the url with its
    prefix already stripped. *)
Definition toCheck (url : string) : completion (list string) :=
  let splitted := Js.split "/" url in
  if Nat.eqb (length splitted) 1 then Return [url]
  else if isScoped url && Nat.eqb (length splitted) 2 then Return [url]
  else alternatives url.

(** [styleResolve(modCheck, prev)] of @chialab/node-resolve: a path, a
    falsy value, or an exception. *)
Variable styleResolve : string -> string -> completion (option string).

(** The resolution loop with its [try]/[catch]: [url] is reassigned by
    every call that returns and kept by every call that throws (the
    exception is dropped); a truthy value ends the loop. *)
Fixpoint search (prev : string) (candidates : list string)
  (url : option string) : option string :=
  match candidates with
  | [] => url
  | modCheck :: rest =>
      match styleResolve modCheck prev with
      | Return v => if Js.truthy v then v else search prev rest v
      | Throw _ => search prev rest url
      end
  end.

(** What the importer hands back to sass. *)
Inductive ImporterResult : Type :=
| File (file : option string)
| Contents (contents : string).

(** The closure's [resolved] array. *)
Definition Resolved := list (option string).

(** [nodeResolver(url, prev)], with the [resolved] array of its closure
    threaded through. *)
Definition nodeResolver (resolved : Resolved) (url prev : string)
  : completion (ImporterResult * Resolved) :=
  let url := stripPrefix url in
  candidates ← toCheck url;
  let url' := search prev candidates (Some url) in
  if decide (url' ∈ resolved) then Return (Contents "", resolved)
  else Return (File url', resolved ++ [url']).

(** A run of calls on one resolver instance. *)
Fixpoint calls (resolved : Resolved) (requests : list (string * string))
  : completion (list ImporterResult * Resolved) :=
  match requests with
  | [] => Return ([], resolved)
  | (url, prev) :: rest =>
      '(r, resolved') ← nodeResolver resolved url prev;
      '(rs, resolved'') ← calls resolved' rest;
      Return (r :: rs, resolved'')
  end.
End Resolver.

End SassResolver.

(** ** The transform pipeline: loadSourcemap, mergeSourcemaps, transform,
       createPipeline, pipe, inlineSourcemap, finalize *)

Module SourceMap.
(** The [SourceMap] typedef. *)
Record t : Type := {
  version : option nat;
  sources : list string;
  names : list string;
  sourceRoot : option string;
  sourcesContent : option (list string);
  mappings : string;
  file : option string;
}.
End SourceMap.

Module TransformOptions.
(** ['inline'|boolean] *)
Inductive sourcemapOption : Type :=
| Inline
| Bool (b : bool).

(** The [TransformOptions] typedef; an absent property is [None]. *)
Record t : Type := {
  source : option string;
  sourcemap : option sourcemapOption;
  sourcesContent : option bool;
}.
End TransformOptions.

Module TransformResult.
(** The [TransformResult] typedef. *)
Record t : Type := {
  code : string;
  map : option SourceMap.t;
  loader : option string;
  target : option string;
}.
End TransformResult.

Module Pipeline.
(** The [Pipeline] typedef. *)
Record t : Type := {
  contents : string;
  code : string;
  sourceMaps : list (option SourceMap.t);
  target : string;
  loader : string;
}.
End Pipeline.

Module Transform.

Definition newline : string := String "010" EmptyString.

(** White space in the sense of [\s] and [trimEnd] that takes one byte:
    tab, line feed, vertical tab, form feed, carriage return, space. *)
Definition isSpace (a : ascii) : bool :=
  let n := nat_of_ascii a in
  (Nat.leb 9 n && Nat.leb n 13) || Nat.eqb n 32.

(** White space that takes two bytes: U+00A0. *)
Definition isSpace2 (a b : ascii) : bool :=
  Nat.eqb (nat_of_ascii a) 194 && Nat.eqb (nat_of_ascii b) 160.

(** White space that takes three bytes: U+1680, U+2000 to U+200A, U+2028,
    U+2029, U+202F, U+205F, U+3000 and U+FEFF. *)
Definition isSpace3 (a b c : ascii) : bool :=
  let x := nat_of_ascii a in
  let y := nat_of_ascii b in
  let z := nat_of_ascii c in
  (Nat.eqb x 225 && Nat.eqb y 154 && Nat.eqb z 128)
  || (Nat.eqb x 226 && Nat.eqb y 128
      && ((Nat.leb 128 z && Nat.leb z 138) || Nat.eqb z 168 || Nat.eqb z 169
          || Nat.eqb z 175))
  || (Nat.eqb x 226 && Nat.eqb y 129 && Nat.eqb z 159)
  || (Nat.eqb x 227 && Nat.eqb y 128 && Nat.eqb z 128)
  || (Nat.eqb x 239 && Nat.eqb y 187 && Nat.eqb z 191).

(** The bytes of a text, last byte first, without the white space the text
    ends in. *)
Fixpoint dropSpacesEnd (l : list ascii) : list ascii :=
  match l with
  | a :: l1 =>
      if isSpace a then dropSpacesEnd l1
      else match l1 with
           | b :: l2 =>
               if isSpace2 b a then dropSpacesEnd l2
               else match l2 with
                    | c :: l3 =>
                        if isSpace3 c b a then dropSpacesEnd l3 else l
                    | [] => l
                    end
           | [] => l
           end
  | [] => []
  end.

(** [s.trimEnd()] *)
Definition trimEnd (s : string) : string :=
  path.text (rev (dropSpacesEnd (rev (path.chars s)))).

(** The text without the white space it starts with: what [\s*] leaves. *)
Fixpoint dropSpaces (s : string) : string :=
  match s with
  | String a s1 =>
      if isSpace a then dropSpaces s1
      else match s1 with
           | String b s2 =>
               if isSpace2 a b then dropSpaces s2
               else match s2 with
                    | String c s3 =>
                        if isSpace3 a b c then dropSpaces s3 else s
                    | EmptyString => s
                    end
           | EmptyString => s
           end
  | EmptyString => EmptyString
  end.

Definition dropChars (n : nat) (s : string) : string :=
  String.substring n (String.length s - n) s.

(** A match of [/\n\/\/#\s*sourceMappingURL=/] at the start of [s]: the
    text that follows the match. *)
Definition matchMarker (s : string) : option string :=
  let head := newline +:+ "//#" in
  if String.prefix head s then
    let r := dropSpaces (dropChars (String.length head) s) in
    if String.prefix "sourceMappingURL=" r
    then Some (dropChars (String.length "sourceMappingURL=") r)
    else None
  else None.

(** The text before the first match of the marker, and the text after
    that match when there is one. *)
Fixpoint cutMarker (s : string) : string * option string :=
  match matchMarker s with
  | Some rest => (EmptyString, Some rest)
  | None =>
      match s with
      | EmptyString => (EmptyString, None)
      | String a s' => let '(h, t) := cutMarker s' in (String a h, t)
      end
  end.

(** [const [code, mapUrl] = contents.trimEnd().split(marker)]: the first
    two pieces of the split. *)
Definition splitMarker (contents : string) : string * option string :=
  let '(code, rest) := cutMarker (trimEnd contents) in
  (code, match rest with
         | Some r => Some (fst (cutMarker r))
         | None => None
         end).

(** [map.mappings.replace(/;*$/, '')] *)
Definition stripSemicolons (s : string) : string :=
  path.text (rev (path.dropWhile (fun a => Ascii.eqb a ";") (rev (path.chars s)))).

Section Env.
(** [JSON.parse] at the source-map type: the parsed map, a falsy JSON
    value ([None]), or a [SyntaxError]. *)
Variable JSON_parse : string -> completion (option SourceMap.t).
(** [Buffer.from(s).toString('base64')] *)
Variable base64 : string -> string.
(** [readFile(file, 'utf-8')] *)
Variable readFile : string -> completion string.
(** [path.resolve] of two arguments. *)
Variable path_resolve : string -> string -> string.

(** [parseSourcemap(map)] *)
Definition parseSourcemap (map : string) : completion (option SourceMap.t) :=
  JSON_parse map.

(** The value [loadSourcemap] resolves to. *)
Record Loaded : Type := { code : string; map : option SourceMap.t }.

(** The body of the [try] block of [loadSourcemap]; [None] when control
    falls through it. [Buffer.from(undefined)] throws a [TypeError]. *)
Definition loadSourcemapTry (code mapUrl : string) (filePath : option string)
  : completion (option Loaded) :=
  if Js.startsWith mapUrl "data:" then
    payload ← match Js.split "," mapUrl !! 1 with
              | Some p => Return p
              | None => Throw TypeError
              end;
    let content := base64 payload in
    m ← parseSourcemap content;
    Return (Some {| code := code; map := m |})
  else
    match filePath with
    | Some filePath' =>
        if Js.truthy filePath then
          content ← readFile (path_resolve (path.dirname filePath') mapUrl);
          m ← parseSourcemap content;
          Return (Some {| code := code; map := m |})
        else Return None
    | None => Return None
    end.

(** [loadSourcemap(contents, filePath)] *)
Definition loadSourcemap (contents : string) (filePath : option string)
  : completion Loaded :=
  let '(code, mapUrl) := splitMarker contents in
  early ← match mapUrl with
          | Some mapUrl' =>
              if Js.truthy mapUrl then
                try_catch (loadSourcemapTry code mapUrl' filePath)
                          (fun _ => Return None)
              else Return None
          | None => Return None
          end;
  match early with
  | Some r => Return r
  | None => Return {| code := code; map := None |}
  end.

(** [@parcel/source-map]: a map under construction. [addVLQMap] is
    [new SourceMapNode()] followed by [addVLQMap(map)], [extends] is
    [mergedMap.extends(sourceMap.toBuffer())], [toVLQ] is [toVLQ()]; each
    returns or throws. *)
Variable MapNode : Type.
Variable addVLQMap : SourceMap.t -> completion MapNode.
Variable extends : MapNode -> MapNode -> completion MapNode.
Variable toVLQ : MapNode -> completion SourceMap.t.

(** [{ version: 3, ...map }] *)
Definition withVersion3 (m : SourceMap.t) : SourceMap.t :=
  {| SourceMap.version :=
       match SourceMap.version m with Some v => Some v | None => Some 3 end;
     SourceMap.sources := SourceMap.sources m;
     SourceMap.names := SourceMap.names m;
     SourceMap.sourceRoot := SourceMap.sourceRoot m;
     SourceMap.sourcesContent := SourceMap.sourcesContent m;
     SourceMap.mappings := SourceMap.mappings m;
     SourceMap.file := SourceMap.file m |}.

Definition setMappings (s : string) (m : SourceMap.t) : SourceMap.t :=
  {| SourceMap.version := SourceMap.version m;
     SourceMap.sources := SourceMap.sources m;
     SourceMap.names := SourceMap.names m;
     SourceMap.sourceRoot := SourceMap.sourceRoot m;
     SourceMap.sourcesContent := SourceMap.sourcesContent m;
     SourceMap.mappings := s;
     SourceMap.file := SourceMap.file m |}.

Definition setFile (f : option string) (m : SourceMap.t) : SourceMap.t :=
  {| SourceMap.version := SourceMap.version m;
     SourceMap.sources := SourceMap.sources m;
     SourceMap.names := SourceMap.names m;
     SourceMap.sourceRoot := SourceMap.sourceRoot m;
     SourceMap.sourcesContent := SourceMap.sourcesContent m;
     SourceMap.mappings := SourceMap.mappings m;
     SourceMap.file := f |}.

Definition deleteSourcesContent (m : SourceMap.t) : SourceMap.t :=
  {| SourceMap.version := SourceMap.version m;
     SourceMap.sources := SourceMap.sources m;
     SourceMap.names := SourceMap.names m;
     SourceMap.sourceRoot := SourceMap.sourceRoot m;
     SourceMap.sourcesContent := None;
     SourceMap.mappings := SourceMap.mappings m;
     SourceMap.file := SourceMap.file m |}.

(** The reducer of [mergeSourcemaps]. *)
Definition mergeStep (sourceMap : option MapNode) (m : SourceMap.t)
  : completion MapNode :=
  mergedMap ← addVLQMap (setMappings (stripSemicolons (SourceMap.mappings m))
                                     (withVersion3 m));
  match sourceMap with
  | Some previous => extends mergedMap previous
  | None => Return mergedMap
  end.

(** [sourceMaps.reduce(reducer, sourceMap)] *)
Fixpoint reduce (sourceMaps : list SourceMap.t) (sourceMap : option MapNode)
  : completion (option MapNode) :=
  match sourceMaps with
  | [] => Return sourceMap
  | m :: rest =>
      mergedMap ← mergeStep sourceMap m;
      reduce rest (Some mergedMap)
  end.

(** [mergeSourcemaps(sourceMaps)] *)
Definition mergeSourcemaps (sourceMaps : list SourceMap.t)
  : completion (option SourceMap.t) :=
  sourceMap ← reduce sourceMaps None;
  match sourceMap with
  | None => Return None
  | Some sourceMap =>
      vlq ← toVLQ sourceMap;
      Return (Some (withVersion3 vlq))
  end.
End Env.

End Transform.

Module Steps.
Import Transform.

(** What a [TransformCallack] leaves behind when it returns: an explicit
    result, or nothing, in which case [transform] reads the edited
    [MagicString] ([magicCode.toString()] and the parsed
    [magicCode.generateMap(...)]). *)
Inductive Outcome : Type :=
| Explicit (result : TransformResult.t)
| Edited (text : string) (generated : SourceMap.t).

(** A [TransformCallack], applied to the text and the options. *)
Definition TransformCallack : Type :=
  string -> TransformOptions.t -> completion Outcome.

(** [TARGETS] *)
Module TARGETS.
Definition unknown : string := "unknown".
Definition typescript : string := "typescript".
Definition es2020 : string := "es2020".
End TARGETS.

(** [transform(contents, options, callback)] *)
Definition transform (contents : string) (options : TransformOptions.t)
  (callback : TransformCallack) : completion TransformResult.t :=
  outcome ← callback contents options;
  match outcome with
  | Explicit result => Return result
  | Edited text generated =>
      Return {| TransformResult.code := text;
                TransformResult.map := Some generated;
                TransformResult.loader := None;
                TransformResult.target := None |}
  end.

Section Env.
Variable JSON_parse : string -> completion (option SourceMap.t).
Variable base64 : string -> string.
Variable readFile : string -> completion string.
Variable path_resolve : string -> string -> string.

(** [source && source.match(/\.tsx?$/)] *)
Definition isTypeScript (source : option string) : bool :=
  match source with
  | Some s => Js.truthy source && (Js.endsWith s ".ts" || Js.endsWith s ".tsx")
  | None => false
  end.

(** [source && source.match(/\.ts$/)] *)
Definition isTs (source : option string) : bool :=
  match source with
  | Some s => Js.truthy source && Js.endsWith s ".ts"
  | None => false
  end.

(** [createPipeline(contents, { source })] *)
Definition createPipeline (contents : string) (source : option string)
  : completion Pipeline.t :=
  loaded ← loadSourcemap JSON_parse base64 readFile path_resolve
             contents source;
  let sourceMaps :=
    match Transform.map loaded with
    | Some m => [Some m]
    | None => []
    end in
  Return {| Pipeline.contents := contents;
            Pipeline.code := Transform.code loaded;
            Pipeline.sourceMaps := sourceMaps;
            Pipeline.target :=
              if isTypeScript source then TARGETS.typescript
              else TARGETS.unknown;
            Pipeline.loader := if isTs source then "ts" else "tsx" |}.
End Env.

(** [if (value) { field = value; }]: the field after the statement. *)
Definition assignIfTruthy (value : option string) (field : string) : string :=
  match value with
  | Some v => if Js.truthy value then v else field
  | None => field
  end.

(** The three [if] statements of [pipe], applied to the awaited result. *)
Definition update (pipeline : Pipeline.t) (result : TransformResult.t)
  : Pipeline.t :=
  let changed :=
    negb (String.eqb (TransformResult.code result) (Pipeline.code pipeline)) in
  {| Pipeline.contents := Pipeline.contents pipeline;
     Pipeline.code :=
       if changed then TransformResult.code result
       else Pipeline.code pipeline;
     Pipeline.sourceMaps :=
       if changed
       then Pipeline.sourceMaps pipeline ++ [TransformResult.map result]
       else Pipeline.sourceMaps pipeline;
     Pipeline.target :=
       assignIfTruthy (TransformResult.target result) (Pipeline.target pipeline);
     Pipeline.loader :=
       assignIfTruthy (TransformResult.loader result) (Pipeline.loader pipeline)
  |}.

(** [pipe(pipeline, options, callback)]: the pipeline object after the
    call, or the exception of the step. *)
Definition pipe (pipeline : Pipeline.t) (options : TransformOptions.t)
  (callback : TransformCallack) : completion Pipeline.t :=
  result ← transform (Pipeline.code pipeline) options callback;
  Return (update pipeline result).

(** A sequence of [pipe] calls on one pipeline. *)
Fixpoint pipeAll (pipeline : Pipeline.t) (options : TransformOptions.t)
  (callbacks : list TransformCallack) : completion Pipeline.t :=
  match callbacks with
  | [] => Return pipeline
  | callback :: rest =>
      pipeline' ← pipe pipeline options callback;
      pipeAll pipeline' options rest
  end.

Section Finalize.
Variable base64 : string -> string.
(** [JSON.stringify] at the source-map type. *)
Variable JSON_stringify : SourceMap.t -> string.
Variable MapNode : Type.
Variable addVLQMap : SourceMap.t -> completion MapNode.
Variable extends : MapNode -> MapNode -> completion MapNode.
Variable toVLQ : MapNode -> completion SourceMap.t.

(** [inlineSourcemap(code, sourceMap)] *)
Definition inlineSourcemap (code : string) (sourceMap : SourceMap.t)
  : string :=
  code +:+ newline +:+ "//# sourceMappingURL=data:application/json;base64,"
       +:+ base64 (JSON_stringify sourceMap).

(** The destructuring defaults [sourcemap = true], [sourcesContent = true]. *)
Definition sourcemapOf (options : TransformOptions.t)
  : TransformOptions.sourcemapOption :=
  match TransformOptions.sourcemap options with
  | Some s => s
  | None => TransformOptions.Bool true
  end.

Definition sourcesContentOf (options : TransformOptions.t) : bool :=
  match TransformOptions.sourcesContent options with
  | Some b => b
  | None => true
  end.

(** Truthiness of ['inline'|boolean]. *)
Definition enabled (s : TransformOptions.sourcemapOption) : bool :=
  match s with
  | TransformOptions.Inline => true
  | TransformOptions.Bool b => b
  end.

(** [{ code: pipeline.code, map: null, loader: pipeline.loader }] *)
Definition withoutMap (pipeline : Pipeline.t) : TransformResult.t :=
  {| TransformResult.code := Pipeline.code pipeline;
     TransformResult.map := None;
     TransformResult.loader := Some (Pipeline.loader pipeline);
     TransformResult.target := None |}.

(** [pipeline.sourceMaps.filter((map) => !!map)] *)
Fixpoint presentMaps (l : list (option SourceMap.t)) : list SourceMap.t :=
  match l with
  | [] => []
  | Some m :: l' => m :: presentMaps l'
  | None :: l' => presentMaps l'
  end.

(** [finalize(pipeline, { source, sourcemap = true, sourcesContent = true })]:
    the result, or the exception [mergeSourcemaps] lets through. *)
Definition finalize (pipeline : Pipeline.t) (options : TransformOptions.t)
  : completion TransformResult.t :=
  let source := TransformOptions.source options in
  let sourcemap := sourcemapOf options in
  let sourcesContent := sourcesContentOf options in
  if Nat.ltb (length (Pipeline.sourceMaps pipeline)) 2
     || String.eqb (Pipeline.code pipeline) (Pipeline.contents pipeline)
     || negb (enabled sourcemap)
  then Return (withoutMap pipeline)
  else
    let maps := presentMaps (Pipeline.sourceMaps pipeline) in
    merged ← mergeSourcemaps MapNode addVLQMap extends toVLQ maps;
    match merged with
    | None => Return (withoutMap pipeline)
    | Some finalMap =>
        let finalMap :=
          if Js.truthy source then setFile source finalMap
          else setFile None finalMap in
        let finalMap :=
          if negb sourcesContent then deleteSourcesContent finalMap
          else finalMap in
        Return
          {| TransformResult.code :=
               match sourcemap with
               | TransformOptions.Inline =>
                   inlineSourcemap (Pipeline.code pipeline) finalMap
               | TransformOptions.Bool _ => Pipeline.code pipeline
               end;
             TransformResult.map := Some finalMap;
             TransformResult.loader := Some (Pipeline.loader pipeline);
             TransformResult.target := None |}
    end.
End Finalize.

Section TypeScript.
(** [esbuild.transform(contents, { ..., sourcefile, loader, jsxFactory,
    jsxFragment })] with the fixed options [tsconfigRaw: {}],
    [sourcemap: true], [format: 'esm'], [target: 'es2020']: the code and
    the map as JSON text, or an exception. *)
Variable esbuild_transform :
  string -> option string -> option string -> option string -> option string ->
  completion (string * string).
Variable JSON_parse : string -> completion (option SourceMap.t).

(** The [config] of [createTypeScriptTransform]. *)
Record TypeScriptConfig : Type := {
  configLoader : option string;
  jsxFactory : option string;
  jsxFragment : option string;
}.

(** [createTypeScriptTransform(config)]: the callback [transpileTypescript]. *)
Definition createTypeScriptTransform (config : TypeScriptConfig)
  : TransformCallack :=
  fun contents options =>
    '(code, map) ← esbuild_transform contents
                     (TransformOptions.source options)
                     (configLoader config) (jsxFactory config)
                     (jsxFragment config);
    parsed ← parseSourcemap JSON_parse map;
    Return (Explicit {| TransformResult.code := code;
                        TransformResult.map := parsed;
                        TransformResult.target := Some TARGETS.es2020;
                        TransformResult.loader := Some "js" |}).
End TypeScript.

End Steps.

(** * Properties *)

(** ** Strings *)

Module JsFacts.
Import Js.

Lemma app_cons a (s t : string) : String a s +:+ t = String a (s +:+ t).
Proof. reflexivity. Qed.

Lemma app_nil (t : string) : "" +:+ t = t.
Proof. reflexivity. Qed.

Ltac push_app := rewrite ?app_cons, ?app_nil; simpl.

Lemma length_app (s t : string) :
  String.length (s +:+ t) = String.length s + String.length t.
Proof. induction s as [|a s IH]; push_app; [reflexivity | now rewrite IH]. Qed.

Lemma append_assoc (s t u : string) : (s +:+ t) +:+ u = s +:+ (t +:+ u).
Proof.
  induction s as [|a s IH]; push_app; [reflexivity | f_equal; exact IH].
Qed.

Lemma includes_app c s t :
  includes c (s +:+ t) = includes c s || includes c t.
Proof.
  induction s as [|a s IH]; push_app; [reflexivity |].
  destruct (Ascii.eqb a c); [reflexivity | exact IH].
Qed.

(** A string with no [c] is cut at the [c] appended to it. *)
Lemma cut_fresh c s t :
  includes c s = false -> cut c (s +:+ String c t) = (s, Some t).
Proof.
  induction s as [|a s IH]; push_app.
  - intros _. now rewrite Ascii.eqb_refl.
  - destruct (Ascii.eqb a c); [discriminate |].
    intros H. now rewrite (IH H).
Qed.

(** A string with a [c] is cut at that one, whatever is appended. *)
Lemma cut_found c s t :
  includes c s = true ->
  exists q, cut c s = (fst (cut c s), Some q) /\
            cut c (s +:+ t) = (fst (cut c s), Some (q +:+ t)).
Proof.
  induction s as [|a s IH]; push_app; [discriminate |].
  destruct (Ascii.eqb a c).
  - intros _. exists s. split; reflexivity.
  - intros H. destruct (IH H) as (q & Hq & Hqt).
    exists q. rewrite Hqt. destruct (cut c s) as [h o]; simpl in *.
    inversion Hq; subst. split; reflexivity.
Qed.

Lemma split_nonempty c s : split c s <> [].
Proof.
  destruct s as [|a s]; simpl; [discriminate |].
  destruct (Ascii.eqb a c); [discriminate |].
  destruct (split c s); discriminate.
Qed.

(** Splitting distributes over a separator that is appended. *)
Lemma split_app c s t :
  split c (s +:+ String c t) = split c s ++ split c t.
Proof.
  induction s as [|a s IH]; push_app.
  - now rewrite Ascii.eqb_refl.
  - destruct (Ascii.eqb a c); [now rewrite IH |].
    rewrite IH. destruct (split c s) as [|h l] eqn:E; [|reflexivity].
    now apply split_nonempty in E.
Qed.

Lemma split_single c s : includes c s = false -> split c s = [s].
Proof.
  induction s as [|a s IH]; simpl; [reflexivity |].
  destruct (Ascii.eqb a c); [discriminate |]. intros H. now rewrite (IH H).
Qed.


(** The first piece of [param=value&...] is named [param]. *)
Lemma split_param param value :
  includes "&" param = false -> includes "=" param = false ->
  exists piece rest,
    split "&" (param +:+ String "=" value) = piece :: rest /\
    fst (cut "=" piece) = param.
Proof.
  induction param as [|a p IH]; push_app.
  - intros _ _. destruct (split "&" value) as [|h l]; eauto.
  - destruct (Ascii.eqb a "&") eqn:E1; [discriminate |].
    destruct (Ascii.eqb a "=") eqn:E2; [discriminate |].
    intros H1 H2. destruct (IH H1 H2) as (piece & rest & -> & Hp).
    exists (String a piece), rest. split; [reflexivity |].
    simpl. rewrite E2. destruct (cut "=" piece). simpl in *. now subst.
Qed.

Lemma chars_app s t :
  path.chars (s +:+ t) = path.chars s ++ path.chars t.
Proof.
  induction s as [|a s IH]; rewrite ?app_cons, ?app_nil; [reflexivity |].
  unfold path.chars in *. simpl. now rewrite IH.
Qed.

Lemma truthy_Some s : truthy (Some s) = true <-> s <> "".
Proof.
  unfold truthy. destruct (String.eqb_spec s ""); simpl; split; congruence.
Qed.

Lemma or_truthy a b : truthy a = true -> or a b = a.
Proof. unfold or. now intros ->. Qed.

Lemma or_falsy a b : truthy a = false -> or a b = b.
Proof. unfold or. now intros ->. Qed.

End JsFacts.

(** ** The emit markers *)

Module EmitFacts.
Import Js JsFacts NodeResolve EmitPlugin.

Section Markers.
Variable encodeURIComponent : string -> string.
Variable replaceSearchParam : string -> string -> string -> string.
Local Abbreviation append :=
  (appendSearchParam encodeURIComponent replaceSearchParam).

(** The specifier with a marker written after it. *)
Definition suffixed (source param value : string) : string :=
  source +:+ (if includes "?" source then "&" else "?")
         +:+ param +:+ "=" +:+ encodeURIComponent value.

Lemma append_fresh source param value :
  hasSearchParam source param = false ->
  append source param value = suffixed source param value.
Proof. unfold appendSearchParam. now intros ->. Qed.

(** What was just written after the specifier is found again. *)
Lemma hasSearchParam_suffixed source param value :
  includes "&" param = false -> includes "=" param = false ->
  hasSearchParam (suffixed source param value) param = true.
Proof.
  intros H1 H2. unfold hasSearchParam, searchParams, suffixed.
  destruct (split_param param (encodeURIComponent value) H1 H2)
    as (piece & rest & Hs & Hp).
  destruct (includes "?" source) eqn:E.
  - destruct (cut_found "?" source
                ("&" +:+ param +:+ "=" +:+ encodeURIComponent value) E)
      as (q & _ & ->). cbn [snd].
    change (q +:+ "&" +:+ param +:+ "=" +:+ encodeURIComponent value)
      with (q +:+ String "&" (param +:+ String "=" (encodeURIComponent value))).
    rewrite split_app, Hs, List.map_app, existsb_app. simpl.
    rewrite Hp, String.eqb_refl. now rewrite !orb_true_r.
  - change (source +:+ "?" +:+ param +:+ "=" +:+ encodeURIComponent value)
      with (source +:+ String "?" (param +:+ String "=" (encodeURIComponent value))).
    rewrite (cut_fresh _ _ _ E). cbn [snd]. rewrite Hs. simpl.
    now rewrite Hp, String.eqb_refl.
Qed.




End Markers.

(** C6: a path that already carries an [emit] search parameter is returned
    unchanged by [emitFile], and [emitFile] is idempotent on every path. *)
Theorem emitFile_idempotent (encodeURIComponent : string -> string)
  (replaceSearchParam : string -> string -> string -> string)
  (p : string) :
  (hasSearchParam p "emit" = true ->
   emitFile encodeURIComponent replaceSearchParam p = p) /\
  emitFile encodeURIComponent replaceSearchParam
    (emitFile encodeURIComponent replaceSearchParam p)
  = emitFile encodeURIComponent replaceSearchParam p.
Proof.
  split.
  - unfold emitFile. now intros ->.
  - unfold emitFile at 2 3. destruct (hasSearchParam p "emit") eqn:E.
    + unfold emitFile. now rewrite E.
    + unfold emitFile. rewrite (append_fresh _ _ _ _ _ E).
      now rewrite hasSearchParam_suffixed by reflexivity.
Qed.

(** A helper for the parameter that is already there which, like
    [URLSearchParams.set], gives its first occurrence the new value in
    place and drops its other occurrences. *)
Definition showParam (p : string * option string) : string :=
  match snd p with
  | Some value => fst p +:+ "=" +:+ value
  | None => fst p
  end.

Fixpoint setParam (param value : string)
  (params : list (string * option string)) : list (string * option string) :=
  match params with
  | [] => []
  | p :: rest =>
      if String.eqb (fst p) param
      then (param, Some value)
             :: List.filter (fun q => negb (String.eqb (fst q) param)) rest
      else p :: setParam param value rest
  end.

Definition setSearchParam (source param value : string) : string :=
  searchPath source +:+ "?"
    +:+ path.joinWith "&"
          (map showParam (setParam param value (searchParams source))).

Lemma emitFile_idempotent_witness :
  hasSearchParam "img/a.png?emit=chunk" "emit" = true /\
  emitFile id setSearchParam "img/a.png?emit=chunk" = "img/a.png?emit=chunk" /\
  emitFile id setSearchParam (emitFile id setSearchParam "img/a.png")
  = emitFile id setSearchParam "img/a.png".
Proof.
  split; [reflexivity |]. split.
  - exact (proj1 (emitFile_idempotent id setSearchParam
                    "img/a.png?emit=chunk") eq_refl).
  - exact (proj2 (emitFile_idempotent id setSearchParam "img/a.png")).
Defined.




(** *** The output selected by the emit-chunk load hook *)

Lemma find_filter {A} (p q : A -> bool) (l : list A) :
  List.find p (List.filter q l) = List.find (fun x => q x && p x) l.
Proof.
  induction l as [|a l IH]; simpl; [reflexivity |].
  destruct (q a); simpl; [destruct (p a); [reflexivity | exact IH] | exact IH].
Qed.

Lemma find_first {A} (p : A -> bool) (before after : list A) (x : A) :
  (forall y, In y before -> p y = false) -> p x = true ->
  List.find p (before ++ x :: after) = Some x.
Proof.
  induction before as [|a l IH]; simpl; intros Hb Hx.
  - now rewrite Hx.
  - rewrite (Hb a) by now left. apply IH; [|exact Hx].
    intros y Hy. apply Hb. now right.
Qed.

Lemma find_nowhere {A} (p : A -> bool) (l : list A) :
  (forall y, In y l -> p y = false) -> List.find p l = None.
Proof.
  induction l as [|a l IH]; simpl; intros H; [reflexivity |].
  rewrite (H a) by now left. apply IH. intros y Hy. apply H. now right.
Qed.

Section Selection.
Variable path_resolve : string -> string.

(** An output that does not end in [.map], reports an entry point, and
    whose entry point resolves to the loaded file's path. *)
Definition matchesEntry (outputs : Outputs) (filePath output : string)
  : Prop :=
  endsWith output ".map" = false /\
  exists e, entryPointOf outputs output = Some e /\ e <> "" /\
            filePath = path_resolve e.

(** The three callbacks of the chain, taken together. *)
Definition passes (outputs : Outputs) (filePath output : string) : bool :=
  negb (endsWith output ".map")
  && (truthy (entryPointOf outputs output)
      && isEntry path_resolve outputs filePath output).

Lemma passes_matchesEntry outputs filePath output :
  passes outputs filePath output = true
  <-> matchesEntry outputs filePath output.
Proof.
  unfold passes, matchesEntry, isEntry.
  rewrite !andb_true_iff, negb_true_iff. split.
  - intros (H1 & H2 & H3). split; [exact H1 |].
    destruct (entryPointOf outputs output) as [e|]; [|discriminate].
    exists e. apply truthy_Some in H2. apply String.eqb_eq in H3. auto.
  - intros (H1 & e & -> & H2 & H3). split; [exact H1 |]. split.
    + now apply truthy_Some.
    + now apply String.eqb_eq.
Qed.

Lemma selectOutput_find outputs filePath :
  selectOutput path_resolve outputs filePath
  = Js.or (List.find (passes outputs filePath) (map fst outputs))
          (head (map fst outputs)).
Proof. unfold selectOutput. now rewrite !find_filter. Qed.
End Selection.

(** C1: when the recursive build returns a metafile, the load hook selects
    the first output (in key order, under a non-empty name) that does not
    end in [.map], reports an entry point, and whose entry point resolves
    to the loaded file's path; when no output is such a one, it selects
    the first key of the outputs object. *)
Theorem selectOutput_entry_or_first (path_resolve : string -> string)
  (outputs : Outputs) (filePath : string) :
  (forall before output after,
      map fst outputs = before ++ output :: after ->
      matchesEntry path_resolve outputs filePath output ->
      (forall o, In o before -> ~ matchesEntry path_resolve outputs filePath o) ->
      output <> "" ->
      loadedPath path_resolve (Some outputs) filePath = Some output) /\
  ((forall o, In o (map fst outputs) ->
              ~ matchesEntry path_resolve outputs filePath o) ->
   loadedPath path_resolve (Some outputs) filePath = head (map fst outputs)).
Proof.
  unfold loadedPath. rewrite selectOutput_find. split.
  - intros before output after -> Hm Hb Hne.
    rewrite find_first.
    + apply or_truthy. now apply truthy_Some.
    + intros y Hy. apply not_true_is_false. intros Hp.
      apply passes_matchesEntry in Hp. exact (Hb y Hy Hp).
    + now apply passes_matchesEntry.
  - intros Hn. rewrite find_nowhere; [reflexivity |].
    intros y Hy. apply not_true_is_false. intros Hp.
    apply passes_matchesEntry in Hp. exact (Hn y Hy Hp).
Qed.

Definition sampleOutputs : Outputs :=
  [ ("out/worker.js.map", {| entryPoint := None |});
    ("out/chunk-1.js", {| entryPoint := None |});
    ("out/other.js", {| entryPoint := Some "src/other.js" |});
    ("out/worker.js", {| entryPoint := Some "src/worker.js" |}) ].

Lemma selectOutput_entry_or_first_witness :
  let path_resolve := fun e => "/repo/" +:+ e in
  loadedPath path_resolve (Some sampleOutputs) "/repo/src/worker.js"
  = Some "out/worker.js" /\
  loadedPath path_resolve (Some sampleOutputs) "/repo/src/missing.js"
  = Some "out/worker.js.map".
Proof.
  intros path_resolve. split.
  - apply (proj1 (selectOutput_entry_or_first path_resolve sampleOutputs
                    "/repo/src/worker.js")
             ["out/worker.js.map"; "out/chunk-1.js"; "out/other.js"]
             "out/worker.js" []).
    + reflexivity.
    + split; [reflexivity |]. exists "src/worker.js".
      split; [reflexivity |]. split; [discriminate | reflexivity].
    + intros o Ho (H1 & e & H2 & H3 & H4).
      simpl in Ho. destruct Ho as [<- | [<- | [<- | []]]];
        vm_compute in H1, H2; try discriminate.
      inversion H2; subst e. vm_compute in H4. discriminate.
    + discriminate.
  - apply (proj2 (selectOutput_entry_or_first path_resolve sampleOutputs
                    "/repo/src/missing.js")).
    intros o Ho (H1 & e & H2 & H3 & H4).
    simpl in Ho. destruct Ho as [<- | [<- | [<- | [<- | []]]]];
      vm_compute in H1, H2; try discriminate;
      inversion H2; subst e; vm_compute in H4; discriminate.
Defined.

End EmitFacts.

(** ** The stylesheet resolver *)

Module ResolverFacts.
Import Js JsFacts SassResolver.

Section Candidates.
Variable CSS_EXTENSIONS : list string.

(** The loop of [alternatives] never reads past the array: it appends the
    partial form of each of the [length base] entries it started with. *)
Lemma pushPartials_spec (base : list string) :
  forall n i, i + n = length base ->
    pushPartials n i (base ++ map partialOf (take i base))
    = Return (base ++ map partialOf base).
Proof.
  induction n as [|n IH]; intros i Hi; simpl.
  - rewrite take_ge by lia. reflexivity.
  - assert (Hlt : i < length base) by lia.
    destruct (lookup_lt_is_Some_2 base i Hlt) as [r Hr].
    rewrite lookup_app_l, Hr by exact Hlt.
    rewrite <- app_assoc.
    replace (map partialOf (take i base) ++ [partialOf r])
      with (map partialOf (take (S i) base))
      by (rewrite (take_S_r _ _ _ Hr), List.map_app; reflexivity).
    apply IH. lia.
Qed.

(** The array [results] of [alternatives] before the loop. *)
Definition plainForms (url : string) : list string :=
  if negb (String.eqb (path.extname url) "") then [url]
  else map (fun ext => url +:+ ext) CSS_EXTENSIONS.

Lemma alternatives_spec url :
  alternatives CSS_EXTENSIONS url
  = Return (if notPartial url
            then plainForms url ++ map partialOf (plainForms url)
            else plainForms url).
Proof.
  unfold alternatives. fold (plainForms url).
  destruct (notPartial url); [|reflexivity].
  pose proof (pushPartials_spec (plainForms url)
                (length (plainForms url)) 0 eq_refl) as H.
  simpl in H. now rewrite app_nil_r in H.
Qed.

Lemma toCheck_total url : exists candidates,
  toCheck CSS_EXTENSIONS url = Return candidates.
Proof.
  unfold toCheck.
  destruct (Nat.eqb _ 1); [eauto |].
  destruct (isScoped url && Nat.eqb _ 2); [eauto |].
  rewrite alternatives_spec. eauto.
Qed.
End Candidates.

Section Loop.
Variable styleResolve : string -> string -> completion (option string).

(** A candidate that does not end the loop: it throws or returns a falsy
    value. *)
Definition misses (prev modCheck : string) : Prop :=
  (exists e, styleResolve modCheck prev = Throw e) \/
  (exists v, styleResolve modCheck prev = Return v /\ truthy v = false).


Lemma search_first_hit prev before modCheck after found url :
  (forall c, c ∈ before -> misses prev c) ->
  styleResolve modCheck prev = Return (Some found) -> found <> "" ->
  search styleResolve prev (before ++ modCheck :: after) url = Some found.
Proof.
  intros Hm Hr Hne. revert url.
  induction before as [|c rest IH]; intros url; simpl.
  - rewrite Hr. now rewrite (proj2 (truthy_Some found) Hne).
  - assert (Hrest : forall c', c' ∈ rest -> misses prev c')
      by (intros c' Hc'; apply Hm; now right).
    destruct (Hm c) as [[e ->] | (w & -> & ->)]; [left | |]; now apply IH.
Qed.
End Loop.







Section Calls.
Variable CSS_EXTENSIONS : list string.
Variable styleResolve : string -> string -> completion (option string).

Local Abbreviation resolver := (nodeResolver CSS_EXTENSIONS styleResolve).
Local Abbreviation run := (calls CSS_EXTENSIONS styleResolve).

(** The value of [url] when the loop of a call is over. *)
Definition endsOn (url prev : string) (final : option string) : Prop :=
  exists candidates,
    toCheck CSS_EXTENSIONS (stripPrefix url) = Return candidates /\
    search styleResolve prev candidates (Some (stripPrefix url)) = final.






Lemma endsOn_total url prev : exists final, endsOn url prev final.
Proof.
  destruct (toCheck_total CSS_EXTENSIONS (stripPrefix url)) as [c Hc].
  eexists. exists c. split; [exact Hc | reflexivity].
Qed.

(** When every candidate throws, [url] keeps its value. *)
Lemma search_all_throw prev candidates url :
  (forall c, c ∈ candidates -> exists e, styleResolve c prev = Throw e) ->
  search styleResolve prev candidates url = url.
Proof.
  induction candidates as [|c rest IH]; intros H; simpl; [reflexivity |].
  destruct (H c) as [e ->]; [left |]. simpl.
  apply IH. intros c' Hc'. apply H. now right.
Qed.

(** A call whose loop ends on a value not yet recorded hands it back as
    a file and records it. *)
Lemma nodeResolver_fresh resolved url prev final :
  endsOn url prev final -> final ∉ resolved ->
  resolver resolved url prev = Return (File final, resolved ++ [final]).
Proof.
  intros (c & Hc & Hs) Hn. unfold nodeResolver. rewrite Hc. simpl.
  rewrite Hs. now destruct (decide (final ∈ resolved)).
Qed.

(** A call whose loop ends on a recorded value hands back empty
    contents. *)
Lemma nodeResolver_seen resolved url prev final :
  endsOn url prev final -> final ∈ resolved ->
  resolver resolved url prev = Return (Contents "", resolved).
Proof.
  intros (c & Hc & Hs) Hn. unfold nodeResolver. rewrite Hc. simpl.
  rewrite Hs. now destruct (decide (final ∈ resolved)).
Qed.


End Calls.







(** A resolution routine for which every candidate fails. *)
Definition nothingResolves (modCheck prev : string)
  : completion (option string) := Throw ResolveError.

(** C8, as stated, fails: with every candidate failing, the import
    [~theme/missing] is handed back as [theme/missing], without its prefix,
    and a second failing import of [theme/missing] on the same instance is
    handed empty contents, not its specifier. *)
Lemma nodeResolver_unresolved_not_original :
  let CSS_EXTENSIONS := [".css"; ".scss"] in
  (forall modCheck prev, nothingResolves modCheck prev = Throw ResolveError) /\
  nodeResolver CSS_EXTENSIONS nothingResolves [] "~theme/missing" "main.scss"
  = Return (File (Some "theme/missing"), [Some "theme/missing"]) /\
  File (Some "theme/missing") <> File (Some "~theme/missing") /\
  calls CSS_EXTENSIONS nothingResolves []
        [("theme/missing", "main.scss"); ("theme/missing", "other.scss")]
  = Return ([File (Some "theme/missing"); Contents ""],
            [Some "theme/missing"]).
Proof.
  cbv zeta. split; [reflexivity |]. split; [vm_compute; reflexivity |].
  split; [discriminate | vm_compute; reflexivity].
Qed.

(** C8, amended: when every candidate throws, the resolver does not throw;
    the caller is handed the import with its leading [~] or [package:]
    removed (the import itself when it has no such prefix) as the file,
    unless that very string is already recorded on the instance, in which
    case the caller is handed empty contents. *)
Theorem nodeResolver_unresolved (CSS_EXTENSIONS : list string)
  (styleResolve : string -> string -> completion (option string))
  (resolved : Resolved) (url prev : string) :
  (forall candidates,
      toCheck CSS_EXTENSIONS (stripPrefix url) = Return candidates ->
      forall c, c ∈ candidates -> exists e, styleResolve c prev = Throw e) ->
  let unresolved := Some (stripPrefix url) in
  (unresolved ∉ resolved ->
   nodeResolver CSS_EXTENSIONS styleResolve resolved url prev
   = Return (File unresolved, resolved ++ [unresolved])) /\
  (unresolved ∈ resolved ->
   nodeResolver CSS_EXTENSIONS styleResolve resolved url prev
   = Return (Contents "", resolved)) /\
  (startsWith url "~" = false -> startsWith url "package:" = false ->
   stripPrefix url = url).
Proof.
  intros Hall unresolved.
  assert (He : endsOn CSS_EXTENSIONS styleResolve url prev unresolved).
  { destruct (toCheck_total CSS_EXTENSIONS (stripPrefix url)) as [c Hc].
    exists c. split; [exact Hc |].
    apply search_all_throw. exact (Hall c Hc). }
  split; [|split].
  - now apply nodeResolver_fresh.
  - now apply nodeResolver_seen.
  - unfold stripPrefix. now intros -> ->.
Qed.

Lemma nodeResolver_unresolved_witness :
  nodeResolver [".css"; ".scss"] nothingResolves [] "theme/missing" "main.scss"
  = Return (File (Some "theme/missing"), [Some "theme/missing"]) /\
  nodeResolver [".css"; ".scss"] nothingResolves [Some "theme/missing"]
               "package:theme/missing" "main.scss"
  = Return (Contents "", [Some "theme/missing"]).
Proof.
  split.
  - apply (nodeResolver_unresolved [".css"; ".scss"] nothingResolves []
             "theme/missing" "main.scss").
    + intros candidates _ c _. exists ResolveError. reflexivity.
    + intros H. inversion H.
  - apply (nodeResolver_unresolved [".css"; ".scss"] nothingResolves
             [Some "theme/missing"] "package:theme/missing" "main.scss").
    + intros candidates _ c _. exists ResolveError. reflexivity.
    + vm_compute. left.
Defined.

End ResolverFacts.

(** ** Cutting the code from the source-map comment *)

Module MarkerFacts.
Import Js JsFacts Transform.

Lemma chars_text l : path.chars (path.text l) = l.
Proof. apply list_ascii_of_string_of_list_ascii. Qed.

Lemma text_chars s : path.text (path.chars s) = s.
Proof. apply string_of_list_ascii_of_string. Qed.

Lemma text_app l k : path.text (l ++ k) = path.text l +:+ path.text k.
Proof.
  induction l as [|a l IH]; simpl; [reflexivity |].
  unfold path.text in *. simpl. now rewrite IH.
Qed.

Lemma append_nil_r s : s +:+ "" = s.
Proof. induction s as [|a s IH]; push_app; [reflexivity | now rewrite IH]. Qed.

Lemma cutMarker_eq s :
  cutMarker s
  = match matchMarker s with
    | Some rest => (EmptyString, Some rest)
    | None =>
        match s with
        | EmptyString => (EmptyString, None)
        | String a s' => let '(h, t) := cutMarker s' in (String a h, t)
        end
    end.
Proof. destruct s; reflexivity. Qed.

(** The code part is a prefix of the text that is cut. *)
Lemma cutMarker_prefix s : exists rest, s = fst (cutMarker s) +:+ rest.
Proof.
  induction s as [|a s IH]; rewrite cutMarker_eq.
  - destruct (matchMarker ""); exists ""; reflexivity.
  - destruct (matchMarker (String a s)); [exists (String a s); reflexivity |].
    destruct IH as [rest Hr]. exists rest.
    destruct (cutMarker s) as [h t]. simpl in *. now rewrite Hr at 1.
Qed.

(** Without a match, nothing is cut. *)
Lemma cutMarker_None s : snd (cutMarker s) = None -> fst (cutMarker s) = s.
Proof.
  induction s as [|a s IH]; rewrite cutMarker_eq.
  - now destruct (matchMarker "").
  - destruct (matchMarker (String a s)); [discriminate |].
    destruct (cutMarker s) as [h t]. simpl in *. intros H. now rewrite IH.
Qed.

(** What [dropSpacesEnd] drops is at the front of the list. *)
Lemma dropSpacesEnd_split_bounded : forall n l, length l <= n ->
  exists dropped, l = dropped ++ dropSpacesEnd l.
Proof.
  induction n as [|n IH]; intros l Hl.
  - destruct l; [exists []; reflexivity | simpl in Hl; lia].
  - destruct l as [|a l1]; [exists []; reflexivity |].
    simpl in Hl. cbn [dropSpacesEnd]. destruct (isSpace a).
    + destruct (IH l1) as [d Hd]; [lia |]. exists (a :: d).
      simpl. f_equal. exact Hd.
    + destruct l1 as [|b l2]; [exists []; reflexivity |].
      simpl in Hl. destruct (isSpace2 b a).
      * destruct (IH l2) as [d Hd]; [lia |]. exists (a :: b :: d).
        simpl. do 2 f_equal. exact Hd.
      * destruct l2 as [|c l3]; [exists []; reflexivity |].
        simpl in Hl. destruct (isSpace3 c b a).
        -- destruct (IH l3) as [d Hd]; [lia |]. exists (a :: b :: c :: d).
           simpl. do 3 f_equal. exact Hd.
        -- exists []. reflexivity.
Qed.

Lemma dropSpacesEnd_split l : exists dropped, l = dropped ++ dropSpacesEnd l.
Proof. apply (dropSpacesEnd_split_bounded (length l)). lia. Qed.

Lemma trimEnd_prefix s : exists spaces, s = trimEnd s +:+ spaces.
Proof.
  unfold trimEnd.
  destruct (dropSpacesEnd_split (rev (path.chars s))) as (d & Hd).
  exists (path.text (rev d)).
  rewrite <- text_app, <- rev_app_distr, <- Hd, rev_involutive.
  now rewrite text_chars.
Qed.

Lemma splitMarker_prefix contents :
  exists rest, contents = fst (splitMarker contents) +:+ rest.
Proof.
  unfold splitMarker.
  destruct (trimEnd_prefix contents) as [spaces Hs].
  destruct (cutMarker_prefix (trimEnd contents)) as [rest Hr].
  destruct (cutMarker (trimEnd contents)) as [code o]. simpl in *.
  exists (rest +:+ spaces). now rewrite <- append_assoc, <- Hr.
Qed.

(** When the whole text is in front of the cut, there was no match. *)
Lemma cutMarker_whole s : fst (cutMarker s) = s -> snd (cutMarker s) = None.
Proof.
  induction s as [|a s IH]; rewrite cutMarker_eq.
  - reflexivity.
  - destruct (matchMarker (String a s)); [discriminate |].
    destruct (cutMarker s) as [h t]. simpl in *.
    intros [= H]. now apply IH.
Qed.

Lemma append_same_l s t : s = s +:+ t -> t = "".
Proof.
  intros H. apply (f_equal String.length) in H. rewrite length_app in H.
  destruct t; [reflexivity | simpl in H; lia].
Qed.

(** The code part is the whole text exactly when the text has no white
    space at its end and no source-map comment. *)
Lemma splitMarker_whole contents :
  fst (splitMarker contents) = contents
  <-> trimEnd contents = contents /\ snd (cutMarker contents) = None.
Proof.
  unfold splitMarker. split.
  - intros H.
    destruct (trimEnd_prefix contents) as [spaces Hs].
    destruct (cutMarker_prefix (trimEnd contents)) as [rest Hr].
    destruct (cutMarker (trimEnd contents)) as [code o] eqn:E.
    simpl in H, Hr. subst code.
    assert (Hnil : rest +:+ spaces = "").
    { apply (append_same_l contents). rewrite <- append_assoc, <- Hr.
      exact Hs. }
    assert (rest = "") by (destruct rest; [reflexivity | discriminate]).
    subst rest. rewrite append_nil_r in Hr.
    split; [exact Hr |]. rewrite Hr in E.
    apply cutMarker_whole. now rewrite E.
  - intros [Ht Hn]. rewrite Ht.
    pose proof (cutMarker_None _ Hn) as Hc.
    now destruct (cutMarker contents).
Qed.

End MarkerFacts.

(** ** The transform pipeline *)

Module PipelineFacts.
Import Js JsFacts Transform Steps MarkerFacts.

Section Loading.
Variable JSON_parse : string -> completion (option SourceMap.t).
Variable base64 : string -> string.
Variable readFile : string -> completion string.
Variable path_resolve : string -> string -> string.

Local Abbreviation load :=
  (loadSourcemap JSON_parse base64 readFile path_resolve).
Local Abbreviation tryBody :=
  (loadSourcemapTry JSON_parse base64 readFile path_resolve).
Local Abbreviation create :=
  (createPipeline JSON_parse base64 readFile path_resolve).

(** The ways in which loading the map behind [mapUrl] fails. *)
Inductive loadFailure (mapUrl : string) (filePath : option string) : Prop :=
| malformedDataUri :
    startsWith mapUrl "data:" = true ->
    split "," mapUrl !! 1 = None ->
    loadFailure mapUrl filePath
| unparseableDataUri payload e :
    startsWith mapUrl "data:" = true ->
    split "," mapUrl !! 1 = Some payload ->
    JSON_parse (base64 payload) = Throw e ->
    loadFailure mapUrl filePath
| unreadableFile file e :
    startsWith mapUrl "data:" = false ->
    filePath = Some file -> file <> "" ->
    readFile (path_resolve (path.dirname file) mapUrl) = Throw e ->
    loadFailure mapUrl filePath
| unparseableFile file content e :
    startsWith mapUrl "data:" = false ->
    filePath = Some file -> file <> "" ->
    readFile (path_resolve (path.dirname file) mapUrl) = Return content ->
    JSON_parse content = Throw e ->
    loadFailure mapUrl filePath.

(** Each failure is an exception inside the [try] block. *)
Lemma loadFailure_throws code mapUrl filePath :
  loadFailure mapUrl filePath ->
  exists e, tryBody code mapUrl filePath = Throw e.
Proof.
  unfold loadSourcemapTry, parseSourcemap.
  intros [Hd Hp | payload e Hd Hp He | file e Hd -> Hf He
         | file content e Hd -> Hf Hr He]; rewrite Hd.
  - rewrite Hp. eauto.
  - rewrite Hp. simpl. rewrite He. eauto.
  - rewrite (proj2 (truthy_Some file) Hf), He. eauto.
  - rewrite (proj2 (truthy_Some file) Hf), Hr. simpl. rewrite He. eauto.
Qed.

(** Whatever the [try] block returns carries the code part. *)
Lemma loadSourcemapTry_code code mapUrl filePath loaded :
  tryBody code mapUrl filePath = Return (Some loaded) ->
  Transform.code loaded = code.
Proof.
  unfold loadSourcemapTry, parseSourcemap.
  destruct (startsWith mapUrl "data:").
  - destruct (split "," mapUrl !! 1) as [payload|]; simpl; [|discriminate].
    destruct (JSON_parse (base64 payload)); simpl; [|discriminate].
    now intros [= <-].
  - destruct filePath as [file|]; [|discriminate].
    destruct (truthy (Some file)); [|discriminate].
    destruct (readFile _) as [content|]; simpl; [|discriminate].
    destruct (JSON_parse content); simpl; [|discriminate].
    now intros [= <-].
Qed.

(** [loadSourcemap] always returns, and returns the code part. *)
Lemma loadSourcemap_total contents filePath :
  exists loaded,
    load contents filePath = Return loaded /\
    Transform.code loaded = fst (splitMarker contents).
Proof.
  unfold loadSourcemap. destruct (splitMarker contents) as [code mapUrl].
  simpl fst. destruct mapUrl as [mapUrl|]; [|simpl; eauto].
  destruct (truthy (Some mapUrl)); [|simpl; eauto].
  destruct (tryBody code mapUrl filePath) as [[loaded|]|e] eqn:E; simpl;
    eauto using loadSourcemapTry_code.
Qed.

Lemma loadSourcemap_failure contents filePath code mapUrl :
  splitMarker contents = (code, Some mapUrl) ->
  loadFailure mapUrl filePath ->
  load contents filePath
  = Return {| Transform.code := code; Transform.map := None |}.
Proof.
  intros Hs Hf. unfold loadSourcemap. rewrite Hs.
  destruct (loadFailure_throws code _ _ Hf) as [e He].
  destruct (truthy (Some mapUrl)); [|reflexivity].
  now rewrite He.
Qed.

(** A pipeline starts with the code part of its input and at most one
    map. *)
Lemma createPipeline_spec contents source :
  exists pipeline,
    create contents source = Return pipeline /\
    Pipeline.contents pipeline = contents /\
    Pipeline.code pipeline = fst (splitMarker contents) /\
    length (Pipeline.sourceMaps pipeline) <= 1.
Proof.
  unfold createPipeline.
  destruct (loadSourcemap_total contents source) as (loaded & -> & Hc).
  simpl. eexists. split; [reflexivity |]. simpl.
  split; [reflexivity |]. split; [exact Hc |].
  destruct (Transform.map loaded); simpl; lia.
Qed.
End Loading.

(** C7: [loadSourcemap] never throws and always returns the code part of
    its input; when loading the map fails (a data URI without payload, a
    payload or file that does not parse, a file that cannot be read) it
    returns the code with a null map, and the pipeline is created with an
    empty map chain. *)
Theorem loadSourcemap_swallows_failures
  (JSON_parse : string -> completion (option SourceMap.t))
  (base64 : string -> string)
  (readFile : string -> completion string)
  (path_resolve : string -> string -> string)
  (contents : string) (filePath : option string) :
  (exists loaded,
      loadSourcemap JSON_parse base64 readFile path_resolve contents filePath
      = Return loaded /\
      Transform.code loaded = fst (splitMarker contents)) /\
  (forall code mapUrl,
      splitMarker contents = (code, Some mapUrl) ->
      loadFailure JSON_parse base64 readFile path_resolve mapUrl filePath ->
      loadSourcemap JSON_parse base64 readFile path_resolve contents filePath
      = Return {| Transform.code := code; Transform.map := None |} /\
      exists pipeline,
        createPipeline JSON_parse base64 readFile path_resolve
                       contents filePath = Return pipeline /\
        Pipeline.code pipeline = code /\
        Pipeline.sourceMaps pipeline = []).
Proof.
  split; [apply loadSourcemap_total |].
  intros code mapUrl Hs Hf.
  pose proof (loadSourcemap_failure _ _ _ _ _ _ _ _ Hs Hf) as Hl.
  split; [exact Hl |].
  unfold createPipeline. rewrite Hl. simpl.
  eexists. split; [reflexivity |]. split; reflexivity.
Qed.

(** An environment in which no file can be read and nothing parses. *)
Definition noParse (text : string) : completion (option SourceMap.t) :=
  Throw SyntaxError.
Definition noFile (file : string) : completion string := Throw IOError.
Definition besides (dir file : string) : string := path.join dir file.

Definition withFileMap : string :=
  "a{}" +:+ newline +:+ "//# sourceMappingURL=a.css.map" +:+ newline.

Lemma loadSourcemap_swallows_failures_witness :
  loadSourcemap noParse id noFile besides withFileMap (Some "src/a.css")
  = Return {| Transform.code := "a{}"; Transform.map := None |} /\
  exists pipeline,
    createPipeline noParse id noFile besides withFileMap (Some "src/a.css")
    = Return pipeline /\
    Pipeline.code pipeline = "a{}" /\
    Pipeline.sourceMaps pipeline = [].
Proof.
  apply (proj2 (loadSourcemap_swallows_failures noParse id noFile besides
                  withFileMap (Some "src/a.css")) "a{}" "a.css.map").
  - reflexivity.
  - apply (unreadableFile _ _ _ _ _ _ "src/a.css" IOError);
      [reflexivity | reflexivity | discriminate | reflexivity].
Defined.

Section Piping.
Variable options : TransformOptions.t.

Lemma assignIfTruthy_truthy v field :
  v <> "" -> assignIfTruthy (Some v) field = v.
Proof.
  intros H. unfold assignIfTruthy. now rewrite (proj2 (truthy_Some v) H).
Qed.

Lemma assignIfTruthy_falsy value field :
  truthy value = false -> assignIfTruthy value field = field.
Proof.
  unfold assignIfTruthy. destruct value; [now intros -> | reflexivity].
Qed.

Lemma pipe_update pipeline callback result :
  transform (Pipeline.code pipeline) options callback = Return result ->
  pipe pipeline options callback = Return (update pipeline result).
Proof. unfold pipe. now intros ->. Qed.

Lemma update_changed pipeline result :
  TransformResult.code result <> Pipeline.code pipeline ->
  Pipeline.sourceMaps (update pipeline result)
  = Pipeline.sourceMaps pipeline ++ [TransformResult.map result] /\
  Pipeline.code (update pipeline result) = TransformResult.code result.
Proof.
  intros H. unfold update; simpl.
  now destruct (String.eqb_spec (TransformResult.code result)
                                (Pipeline.code pipeline)).
Qed.

Lemma update_unchanged pipeline result :
  TransformResult.code result = Pipeline.code pipeline ->
  Pipeline.sourceMaps (update pipeline result) = Pipeline.sourceMaps pipeline /\
  Pipeline.code (update pipeline result) = Pipeline.code pipeline /\
  Pipeline.contents (update pipeline result) = Pipeline.contents pipeline.
Proof.
  intros H. unfold update; simpl.
  now destruct (String.eqb_spec (TransformResult.code result)
                                (Pipeline.code pipeline)).
Qed.

(** Every step of the sequence returns the text it was given. *)
Inductive unchangedBy : Pipeline.t -> list TransformCallack -> Prop :=
| unchanged_nil pipeline : unchangedBy pipeline []
| unchanged_cons pipeline callback rest result :
    transform (Pipeline.code pipeline) options callback = Return result ->
    TransformResult.code result = Pipeline.code pipeline ->
    unchangedBy (update pipeline result) rest ->
    unchangedBy pipeline (callback :: rest).

Lemma pipeAll_unchanged pipeline callbacks :
  unchangedBy pipeline callbacks ->
  exists pipeline',
    pipeAll pipeline options callbacks = Return pipeline' /\
    Pipeline.sourceMaps pipeline' = Pipeline.sourceMaps pipeline /\
    Pipeline.code pipeline' = Pipeline.code pipeline /\
    Pipeline.contents pipeline' = Pipeline.contents pipeline.
Proof.
  induction 1 as [p | p callback rest result Ht Hc _ IH]; simpl.
  - eauto.
  - rewrite (pipe_update _ _ _ Ht). simpl.
    destruct IH as (p' & -> & H1 & H2 & H3).
    destruct (update_unchanged p result Hc) as (U1 & U2 & U3).
    exists p'. repeat split; congruence.
Qed.
End Piping.

(** C4: [pipe] appends the step's map to the map list and replaces the
    current text exactly when the step's text differs from the current
    text; a step that returns the current text adds no map. *)
Theorem pipe_appends_iff_changed (pipeline : Pipeline.t)
  (options : TransformOptions.t) (callback : TransformCallack)
  (result : TransformResult.t) :
  transform (Pipeline.code pipeline) options callback = Return result ->
  exists pipeline',
    pipe pipeline options callback = Return pipeline' /\
    (TransformResult.code result <> Pipeline.code pipeline ->
     Pipeline.sourceMaps pipeline'
     = Pipeline.sourceMaps pipeline ++ [TransformResult.map result] /\
     Pipeline.code pipeline' = TransformResult.code result) /\
    (TransformResult.code result = Pipeline.code pipeline ->
     Pipeline.sourceMaps pipeline' = Pipeline.sourceMaps pipeline /\
     Pipeline.code pipeline' = Pipeline.code pipeline) /\
    (length (Pipeline.sourceMaps pipeline')
     = S (length (Pipeline.sourceMaps pipeline))
     <-> TransformResult.code result <> Pipeline.code pipeline).
Proof.
  intros Ht. exists (update pipeline result).
  split; [now apply pipe_update |].
  split; [apply update_changed |].
  split; [intros H; now destruct (update_unchanged pipeline result H) |].
  split.
  - intros Hl Heq.
    destruct (update_unchanged pipeline result Heq) as [Hm _].
    rewrite Hm in Hl. lia.
  - intros Hne. destruct (update_changed pipeline result Hne) as [Hm _].
    rewrite Hm, List.length_app. simpl. lia.
Qed.

Definition emptyMap : SourceMap.t :=
  {| SourceMap.version := Some 3; SourceMap.sources := [];
     SourceMap.names := []; SourceMap.sourceRoot := None;
     SourceMap.sourcesContent := None; SourceMap.mappings := "";
     SourceMap.file := None |}.

Definition noOptions : TransformOptions.t :=
  {| TransformOptions.source := None; TransformOptions.sourcemap := None;
     TransformOptions.sourcesContent := None |}.

Definition samplePipeline : Pipeline.t :=
  {| Pipeline.contents := "let a: number = 1"; Pipeline.code := "let a: number = 1";
     Pipeline.sourceMaps := []; Pipeline.target := "typescript";
     Pipeline.loader := "ts" |}.

(** A step that edits the buffer, one that leaves it alone, and one that
    returns the text it was given with new tags. *)
Definition appendSemicolon : TransformCallack :=
  fun text _ => Return (Edited (text +:+ ";") emptyMap).
Definition leaveAlone : TransformCallack :=
  fun text _ => Return (Edited text emptyMap).
Definition retag : TransformCallack :=
  fun text _ =>
    Return (Explicit {| TransformResult.code := text;
                        TransformResult.map := None;
                        TransformResult.loader := Some "js";
                        TransformResult.target := Some "es2020" |}).

Lemma pipe_appends_iff_changed_witness :
  exists pipeline',
    pipe samplePipeline noOptions appendSemicolon = Return pipeline' /\
    Pipeline.sourceMaps pipeline' = [Some emptyMap] /\
    Pipeline.code pipeline' = "let a: number = 1;".
Proof.
  destruct (pipe_appends_iff_changed samplePipeline noOptions appendSemicolon
              _ eq_refl) as (p' & Hp & Hchanged & _).
  exists p'. split; [exact Hp |]. apply Hchanged. discriminate.
Defined.

(** C9: a step whose text equals the current text leaves the pipeline's
    code, original contents and map list as they are, and still overwrites
    the loader and the target with those the step's result reports. *)
Theorem pipe_unchanged_text_keeps_maps (pipeline : Pipeline.t)
  (options : TransformOptions.t) (callback : TransformCallack)
  (result : TransformResult.t) :
  transform (Pipeline.code pipeline) options callback = Return result ->
  TransformResult.code result = Pipeline.code pipeline ->
  exists pipeline',
    pipe pipeline options callback = Return pipeline' /\
    Pipeline.code pipeline' = Pipeline.code pipeline /\
    Pipeline.contents pipeline' = Pipeline.contents pipeline /\
    Pipeline.sourceMaps pipeline' = Pipeline.sourceMaps pipeline /\
    (forall loader, TransformResult.loader result = Some loader ->
                    loader <> "" -> Pipeline.loader pipeline' = loader) /\
    (truthy (TransformResult.loader result) = false ->
     Pipeline.loader pipeline' = Pipeline.loader pipeline) /\
    (forall target, TransformResult.target result = Some target ->
                    target <> "" -> Pipeline.target pipeline' = target) /\
    (truthy (TransformResult.target result) = false ->
     Pipeline.target pipeline' = Pipeline.target pipeline).
Proof.
  intros Ht Hc. exists (update pipeline result).
  split; [now apply pipe_update |].
  destruct (update_unchanged pipeline result Hc) as (H1 & H2 & H3).
  repeat split; try assumption; unfold update; cbn [Pipeline.loader Pipeline.target].
  - intros loader -> Hne. now apply assignIfTruthy_truthy.
  - apply assignIfTruthy_falsy.
  - intros target -> Hne. now apply assignIfTruthy_truthy.
  - apply assignIfTruthy_falsy.
Qed.

Lemma pipe_unchanged_text_keeps_maps_witness :
  exists pipeline',
    pipe samplePipeline noOptions retag = Return pipeline' /\
    Pipeline.code pipeline' = "let a: number = 1" /\
    Pipeline.sourceMaps pipeline' = [] /\
    Pipeline.loader pipeline' = "js" /\
    Pipeline.target pipeline' = "es2020".
Proof.
  destruct (pipe_unchanged_text_keeps_maps samplePipeline noOptions retag
              _ eq_refl eq_refl) as (p' & Hp & H1 & _ & H3 & Hl & _ & Ht & _).
  exists p'. split; [exact Hp |]. split; [exact H1 |]. split; [exact H3 |].
  split; [apply Hl | apply Ht]; first [reflexivity | discriminate].
Defined.

Section Finalizing.
Variable base64 : string -> string.
Variable JSON_stringify : SourceMap.t -> string.
Variable MapNode : Type.
Variable addVLQMap : SourceMap.t -> completion MapNode.
Variable extends : MapNode -> MapNode -> completion MapNode.
Variable toVLQ : MapNode -> completion SourceMap.t.

Local Abbreviation final :=
  (finalize base64 JSON_stringify MapNode addVLQMap extends toVLQ).

Lemma finalize_early pipeline options :
  length (Pipeline.sourceMaps pipeline) < 2 \/
  Pipeline.code pipeline = Pipeline.contents pipeline \/
  enabled (sourcemapOf options) = false ->
  final pipeline options = Return (withoutMap pipeline).
Proof.
  intros H. unfold finalize.
  destruct (Nat.ltb_spec (length (Pipeline.sourceMaps pipeline)) 2)
    as [_|Hge]; [reflexivity |].
  destruct (String.eqb_spec (Pipeline.code pipeline)
                            (Pipeline.contents pipeline)) as [_|Hne];
    [reflexivity |].
  destruct (enabled (sourcemapOf options)); [|reflexivity].
  destruct H as [H | [H | H]]; [lia | contradiction | discriminate].
Qed.
End Finalizing.

(** A source-map library that accepts every map. *)
Definition acceptsAll (m : SourceMap.t) : completion unit := Return tt.
Definition extendsAll (later earlier : unit) : completion unit := Return tt.
Definition emptyVLQ (node : unit) : completion SourceMap.t := Return emptyMap.

(** C3, as stated, fails in its last sentence: a pipeline created from a
    text that ends in a line feed, piped through a step that changes
    nothing, is finalized to the text without the line feed, which is not
    the original text. *)
Lemma finalize_not_original_text :
  let contents := "a{}" +:+ newline in
  exists pipeline pipeline' result,
    createPipeline noParse id noFile besides contents None = Return pipeline /\
    Pipeline.contents pipeline = contents /\
    pipeAll pipeline noOptions [leaveAlone] = Return pipeline' /\
    unchangedBy noOptions pipeline [leaveAlone] /\
    finalize id (fun _ => "") unit acceptsAll extendsAll emptyVLQ
             pipeline' noOptions = Return result /\
    TransformResult.code result = "a{}" /\
    "a{}" <> contents.
Proof.
  cbv zeta. eexists. eexists. eexists.
  split; [vm_compute; reflexivity |]. split; [reflexivity |].
  split; [vm_compute; reflexivity |]. split.
  - eapply unchanged_cons; [reflexivity | reflexivity | apply unchanged_nil].
  - split; [vm_compute; reflexivity |].
    split; [reflexivity | vm_compute; discriminate].
Qed.

(** C3, amended: with fewer than two maps, or the current text equal to
    the original text, or map generation disabled, [finalize] returns the
    current text with a null map (so the original text when the current
    text equals it); and a pipeline in which no step changed the text is
    finalized, with a null map, to the code it was created with: what
    precedes the first source-map comment of the original text once the
    white space at its end is removed. That code is a prefix of the
    original text, and is the original text exactly when this one has no
    white space at its end and no source-map comment. *)
Theorem finalize_without_map
  (base64 : string -> string) (JSON_stringify : SourceMap.t -> string)
  (MapNode : Type) (addVLQMap : SourceMap.t -> completion MapNode)
  (extends : MapNode -> MapNode -> completion MapNode)
  (toVLQ : MapNode -> completion SourceMap.t)
  (JSON_parse : string -> completion (option SourceMap.t))
  (readFile : string -> completion string)
  (path_resolve : string -> string -> string)
  (options : TransformOptions.t) :
  let final := finalize base64 JSON_stringify MapNode addVLQMap extends toVLQ in
  (forall pipeline,
      length (Pipeline.sourceMaps pipeline) < 2 \/
      Pipeline.code pipeline = Pipeline.contents pipeline \/
      enabled (sourcemapOf options) = false ->
      exists result,
        final pipeline options = Return result /\
        TransformResult.code result = Pipeline.code pipeline /\
        TransformResult.map result = None) /\
  (forall pipeline,
      Pipeline.code pipeline = Pipeline.contents pipeline ->
      exists result,
        final pipeline options = Return result /\
        TransformResult.code result = Pipeline.contents pipeline /\
        TransformResult.map result = None) /\
  (forall contents source pipeline stepOptions callbacks,
      createPipeline JSON_parse base64 readFile path_resolve contents source
      = Return pipeline ->
      unchangedBy stepOptions pipeline callbacks ->
      exists pipeline' result,
        pipeAll pipeline stepOptions callbacks = Return pipeline' /\
        final pipeline' options = Return result /\
        TransformResult.map result = None /\
        TransformResult.code result = Pipeline.code pipeline /\
        Pipeline.code pipeline = fst (cutMarker (trimEnd contents)) /\
        (exists rest, contents = Pipeline.code pipeline +:+ rest) /\
        (Pipeline.code pipeline = contents
         <-> trimEnd contents = contents /\
             snd (cutMarker contents) = None)).
Proof.
  intros final. split; [|split].
  - intros pipeline H. exists (withoutMap pipeline). unfold final.
    rewrite finalize_early by exact H. repeat split.
  - intros pipeline H. exists (withoutMap pipeline). unfold final.
    rewrite finalize_early by (right; left; exact H).
    split; [reflexivity |]. split; [exact H | reflexivity].
  - intros contents source pipeline stepOptions callbacks Hc Hu.
    destruct (createPipeline_spec JSON_parse base64 readFile path_resolve
                contents source) as (p0 & Hp0 & _ & Hcode & Hlen).
    rewrite Hc in Hp0. injection Hp0 as <-.
    destruct (pipeAll_unchanged stepOptions pipeline callbacks Hu)
      as (p' & Hp' & Hm & Hco & _).
    exists p', (withoutMap p'). split; [exact Hp' |]. unfold final.
    rewrite finalize_early by (left; rewrite Hm; lia).
    split; [reflexivity |]. split; [reflexivity |].
    split; [exact Hco |].
    assert (Hfst : fst (splitMarker contents)
                   = fst (cutMarker (trimEnd contents)))
      by (unfold splitMarker; now destruct (cutMarker (trimEnd contents))).
    split; [now rewrite Hcode |].
    split; [rewrite Hcode; apply splitMarker_prefix |].
    rewrite Hcode. apply splitMarker_whole.
Qed.

Definition afterComment : string :=
  "a();" +:+ newline +:+ "//# sourceMappingURL=a.js.map" +:+ newline
         +:+ "b();" +:+ newline.

Lemma finalize_without_map_witness :
  let final := finalize id (fun _ => "") unit acceptsAll extendsAll emptyVLQ in
  (exists result,
      final samplePipeline noOptions = Return result /\
      TransformResult.code result = "let a: number = 1" /\
      TransformResult.map result = None) /\
  exists pipeline pipeline' result,
    createPipeline noParse id noFile besides afterComment (Some "src/a.js")
    = Return pipeline /\
    pipeAll pipeline noOptions [leaveAlone; retag] = Return pipeline' /\
    final pipeline' noOptions = Return result /\
    TransformResult.map result = None /\
    TransformResult.code result = "a();".
Proof.
  intros final.
  destruct (finalize_without_map id (fun _ => "") unit acceptsAll extendsAll
              emptyVLQ noParse noFile besides noOptions) as (H1 & H2 & H3).
  split.
  - apply H1. left. simpl. lia.
  - eexists.
    destruct (H3 afterComment (Some "src/a.js") _ noOptions
                [leaveAlone; retag] eq_refl) as (p' & r & Hp & Hf & Hm & Hc & _).
    + eapply unchanged_cons; [reflexivity | reflexivity |].
      eapply unchanged_cons; [reflexivity | reflexivity |].
      apply unchanged_nil.
    + exists p', r. split; [reflexivity |]. split; [exact Hp |].
      split; [exact Hf |]. split; [exact Hm | exact Hc].
Defined.

End PipelineFacts.

(** ** The helpers of the emit plugin *)

Module EmitSetupFacts.
Import Js JsFacts EmitPlugin EmitSetup.

Lemma equals_spec v s : equals v s = true <-> v = Some s.
Proof.
  unfold equals. destruct v as [s'|]; [|split; discriminate].
  rewrite String.eqb_eq. split; congruence.
Qed.

(** [getBaseUrl] answers [import.meta.url] exactly for the esm format and
    for a platform that is neither [browser] nor [node]. *)
Theorem getBaseUrl_import_meta (platform format : option string) :
  getBaseUrl platform format = "import.meta.url"
  <-> format = Some "esm" \/
      (platform <> Some "browser" /\ platform <> Some "node").
Proof.
  unfold getBaseUrl.
  destruct (equals format "esm") eqn:Ef.
  - rewrite !andb_false_r. apply equals_spec in Ef. tauto.
  - rewrite !andb_true_r.
    assert (Hf : format <> Some "esm")
      by (intros H; apply equals_spec in H; congruence).
    destruct (equals platform "browser") eqn:Eb.
    + apply equals_spec in Eb. subst.
      split; [discriminate | intros [H | [H _]]; congruence].
    + destruct (equals platform "node") eqn:En.
      * apply equals_spec in En. subst.
        split; [discriminate | intros [H | [_ H]]; congruence].
      * split; [|reflexivity]. intros _. right.
        split; intros H; apply equals_spec in H; congruence.
Qed.

Lemma isAlphanumeric_unit a : isAlphanumeric a = true -> unitsOf a = 1.
Proof.
  unfold isAlphanumeric, unitsOf. cbv zeta. intros H.
  destruct (Nat.ltb_spec (nat_of_ascii a) 128) as [|Hge]; [reflexivity |].
  exfalso.
  repeat match type of H with
         | (_ || _) = true => apply orb_true_iff in H as [H | H]
         | (_ && _) = true => apply andb_true_iff in H as [_ H]
         end; apply Nat.leb_le in H; lia.
Qed.

Lemma underscores_length n : String.length (underscores n) = n.
Proof. induction n as [|n IH]; simpl; [reflexivity | now rewrite IH]. Qed.

Lemma underscores_chars n :
  Forall (fun a => isAlphanumeric a = true \/ a = "_"%char)
         (list_ascii_of_string (underscores n)).
Proof.
  induction n as [|n IH]; simpl; constructor; [now right | exact IH].
Qed.

Lemma sanitize_length s : String.length (sanitize s) = unitLength s.
Proof.
  induction s as [|a s IH]; [reflexivity |]. cbn [sanitize unitLength].
  destruct (isAlphanumeric a) eqn:E.
  - rewrite (isAlphanumeric_unit _ E). simpl. now rewrite IH.
  - now rewrite length_app, underscores_length, IH.
Qed.

Lemma sanitize_chars s :
  Forall (fun a => isAlphanumeric a = true \/ a = "_"%char)
         (list_ascii_of_string (sanitize s)).
Proof.
  induction s as [|a s IH]; [constructor |]. cbn [sanitize].
  destruct (isAlphanumeric a) eqn:E.
  - simpl. constructor; [now left | exact IH].
  - change list_ascii_of_string with path.chars.
    rewrite chars_app. apply Forall_app. split; [|exact IH].
    apply underscores_chars.
Qed.

(** The identifier [createImportStatement] builds is an underscore
    followed by letters, digits and underscores only, one for each UTF-16
    unit of the specifier (or of the entry point when there is no
    specifier) up to its first question mark. *)
Theorem createImportStatement_identifier (entryPoint : string)
  (specifier : option string) :
  exists name,
    identifier (createImportStatement entryPoint specifier)
    = String "_" name /\
    Forall (fun a => isAlphanumeric a = true \/ a = "_"%char)
           (list_ascii_of_string name) /\
    String.length name
    = unitLength (fst (cut "?" (orElse specifier entryPoint))) /\
    statement (createImportStatement entryPoint specifier)
    = "import _" +:+ name +:+ " from '" +:+ entryPoint +:+ "';".
Proof.
  exists (sanitize (fst (cut "?" (orElse specifier entryPoint)))).
  split; [reflexivity |]. split; [apply sanitize_chars |].
  split; [apply sanitize_length | reflexivity].
Qed.

Lemma orElse_Some s entryPoint : s <> "" -> orElse (Some s) entryPoint = s.
Proof.
  intros H. unfold orElse. now rewrite (proj2 (truthy_Some s) H).
Qed.

(** What follows the first question mark of a specifier, emit markers
    included, has no part in the identifier. *)
Theorem createImportStatement_ignores_query (entryPoint specifier query
  : string) :
  specifier <> "" ->
  includes "?" specifier = false ->
  identifier (createImportStatement entryPoint
                (Some (specifier +:+ "?" +:+ query)))
  = identifier (createImportStatement entryPoint (Some specifier)).
Proof.
  intros Hne Hq. unfold createImportStatement. cbn [identifier].
  assert (Hne' : specifier +:+ "?" +:+ query <> "")
    by (destruct specifier; [congruence | discriminate]).
  rewrite !orElse_Some by assumption.
  change (specifier +:+ "?" +:+ query) with (specifier +:+ String "?" query).
  rewrite (cut_fresh _ _ _ Hq).
  assert (Hc : cut "?" specifier = (specifier, None)).
  { clear Hne Hne'. induction specifier as [|a s IH]; [reflexivity |].
    simpl in *. destruct (Ascii.eqb a "?"); [discriminate |].
    now rewrite (IH Hq). }
  now rewrite Hc.
Qed.

Lemma createImportStatement_ignores_query_witness :
  identifier (createImportStatement "./worker.js?emit=chunk"
                (Some "./worker.js?emit=chunk"))
  = identifier (createImportStatement "./worker.js?emit=chunk"
                  (Some "./worker.js")).
Proof.
  apply (createImportStatement_ignores_query "./worker.js?emit=chunk"
           "./worker.js" "emit=chunk"); [discriminate | reflexivity].
Defined.

Lemma substring_all s : String.substring 0 (String.length s) s = s.
Proof. induction s as [|a s IH]; simpl; [reflexivity | now rewrite IH]. Qed.

Lemma substring_app_l a b :
  String.substring 0 (String.length a) (a +:+ b) = a.
Proof.
  induction a as [|c a IH]; push_app; [now destruct b | now rewrite IH].
Qed.

Lemma substring_app_r a b :
  String.substring (String.length a)
    (String.length (a +:+ b) - String.length a) (a +:+ b) = b.
Proof.
  induction a as [|c a IH]; push_app.
  - rewrite Nat.sub_0_r. apply substring_all.
  - exact IH.
Qed.

Lemma indexOf_fresh c line rest :
  includes c line = false ->
  indexOf c (line +:+ String c rest) = Some (String.length line).
Proof.
  induction line as [|a l IH]; push_app.
  - intros _. now rewrite Ascii.eqb_refl.
  - destruct (Ascii.eqb a c); [discriminate |]. intros H. now rewrite (IH H).
Qed.

Lemma indexOf_absent c line : includes c line = false -> indexOf c line = None.
Proof.
  induction line as [|a l IH]; simpl; [reflexivity |].
  destruct (Ascii.eqb a c); [discriminate |]. intros H. now rewrite (IH H).
Qed.

Lemma startsWith_shebang s : startsWith ("#!" +:+ s) "#!" = true.
Proof. now destruct s. Qed.

(** The import line is put in front of the code; behind the first line
    when the code starts with a [#!] line, so that this one stays first;
    and in front of the [#!] when that line is the whole code, with no line
    feed to end it. *)
Theorem prependImportStatement_position (entryPoint : string)
  (specifier : option string) :
  let line := statement (createImportStatement entryPoint specifier)
              +:+ lineFeed in
  let edited code :=
    toString code (snd (prependImportStatement code entryPoint specifier)) in
  (forall code, startsWith code "#!" = false ->
                edited code = line +:+ code) /\
  (forall first rest,
      includes "010" first = false ->
      edited ("#!" +:+ first +:+ lineFeed +:+ rest)
      = "#!" +:+ first +:+ lineFeed +:+ line +:+ rest) /\
  (forall first,
      includes "010" first = false ->
      edited ("#!" +:+ first) = line +:+ "#!" +:+ first).
Proof.
  intros line edited. unfold edited, prependImportStatement. split; [|split].
  - intros code ->. reflexivity.
  - intros first rest Hf. cbv beta.
    rewrite (startsWith_shebang (first +:+ lineFeed +:+ rest)).
    change ("#!" +:+ first +:+ lineFeed +:+ rest)
      with (("#!" +:+ first) +:+ String "010" rest).
    assert (Hf' : includes "010" ("#!" +:+ first) = false) by exact Hf.
    rewrite (indexOf_fresh _ _ _ Hf'). cbn [snd toString].
    fold line.
    replace (String.length ("#!" +:+ first) + 1)
      with (String.length (("#!" +:+ first) +:+ lineFeed))
      by (rewrite length_app; reflexivity).
    change (("#!" +:+ first) +:+ String "010" rest)
      with (("#!" +:+ first) +:+ lineFeed +:+ rest).
    rewrite <- (append_assoc ("#!" +:+ first) lineFeed rest).
    rewrite substring_app_l, substring_app_r.
    now rewrite !append_assoc.
  - intros first Hf. cbv beta. rewrite (startsWith_shebang first).
    assert (Hf' : includes "010" ("#!" +:+ first) = false) by exact Hf.
    rewrite (indexOf_absent _ _ Hf'). cbn [snd toString]. fold line.
    rewrite Nat.sub_0_r, substring_all.
    now destruct first.
Qed.

Lemma prependImportStatement_position_witness :
  toString ("#!/usr/bin/env node" +:+ lineFeed +:+ "run()")
    (snd (prependImportStatement
            ("#!/usr/bin/env node" +:+ lineFeed +:+ "run()") "./a.js" None))
  = "#!/usr/bin/env node" +:+ lineFeed +:+ "import ___a_js from './a.js';"
      +:+ lineFeed +:+ "run()".
Proof.
  exact (proj1 (proj2 (prependImportStatement_position "./a.js" None))
           "/usr/bin/env node" "run()" eq_refl).
Defined.

(** The options of the sub-build: the transform options of the marker win
    over the options of the build, and nothing wins over the four forced
    entries. *)
Theorem chunkConfig_lookup (options pluginData : gmap string value)
  (filePath outdir : string) :
  let config := chunkConfig options pluginData filePath outdir in
  config !! "entryPoints" = Some (Strs [filePath]) /\
  config !! "outfile" = Some Undefined /\
  config !! "outdir" = Some (Str outdir) /\
  config !! "metafile" = Some (Bool true) /\
  (forall key,
      key <> "entryPoints" -> key <> "outfile" -> key <> "outdir" ->
      key <> "metafile" ->
      config !! key = match pluginData !! key with
                      | Some v => Some v
                      | None => options !! key
                      end).
Proof.
  intros config. unfold config, chunkConfig.
  repeat split.
  - now rewrite !lookup_insert_ne, lookup_insert_eq by discriminate.
  - now rewrite !lookup_insert_ne, lookup_insert_eq by discriminate.
  - now rewrite lookup_insert_ne, lookup_insert_eq by discriminate.
  - now rewrite lookup_insert_eq.
  - intros key H1 H2 H3 H4.
    rewrite !lookup_insert_ne, lookup_union by congruence.
    destruct (pluginData !! key), (options !! key); reflexivity.
Qed.

Lemma chunkConfig_lookup_witness :
  let options : gmap string value :=
    {[ "format" := Str "esm"; "minify" := Bool true; "outfile" := Str "out.js" ]} in
  let pluginData : gmap string value :=
    {[ "format" := Str "iife"; "metafile" := Bool false ]} in
  let config := chunkConfig options pluginData "/repo/w.js" "dist" in
  config !! "format" = Some (Str "iife") /\
  config !! "minify" = Some (Bool true) /\
  config !! "metafile" = Some (Bool true).
Proof.
  intros options pluginData config.
  destruct (chunkConfig_lookup options pluginData "/repo/w.js" "dist")
    as (_ & _ & _ & Hm & Hk).
  unfold config. split; [|split].
  - rewrite (Hk "format") by discriminate. vm_compute. reflexivity.
  - rewrite (Hk "minify") by discriminate. vm_compute. reflexivity.
  - exact Hm.
Defined.

(** Once the sub-build reports its outputs, the path that is read is one
    of their keys, when there is any; with no outputs at all it is
    undefined. *)
Theorem loadedPath_is_output (path_resolve : string -> string)
  (outputs : Outputs) (filePath : string) :
  (outputs = [] -> loadedPath path_resolve (Some outputs) filePath = None) /\
  (outputs <> [] ->
   exists output,
     loadedPath path_resolve (Some outputs) filePath = Some output /\
     In output (map fst outputs)).
Proof.
  split.
  - intros ->. reflexivity.
  - intros Hne. unfold loadedPath, selectOutput.
    set (found := List.find _ _).
    destruct outputs as [|[k o] rest]; [congruence |].
    unfold Js.or. destruct (truthy found) eqn:E.
    + destruct found as [output|] eqn:Ef; [|discriminate].
      exists output. split; [reflexivity |].
      apply find_some in Ef as [Hin _].
      apply filter_In in Hin as [Hin _]. now apply filter_In in Hin as [Hin _].
    + exists k. split; [reflexivity | now left].
Qed.

Definition mapFirst : Outputs :=
  [ ("out/w.js.map", {| entryPoint := None |});
    ("out/w.js", {| entryPoint := Some "/repo/w.js" |}) ].

Lemma loadedPath_is_output_witness :
  exists output,
    loadedPath (fun e => e) (Some mapFirst) "/nowhere" = Some output /\
    In output (map fst mapFirst).
Proof.
  apply (proj2 (loadedPath_is_output (fun e => e) mapFirst "/nowhere")).
  discriminate.
Defined.

End EmitSetupFacts.

(** ** More on the stylesheet resolver *)

Module ResolverMore.
Import Js JsFacts SassResolver ResolverFacts.

(** The files handed out by a run of calls, in order. *)
Fixpoint filesOf (results : list ImporterResult) : list (option string) :=
  match results with
  | [] => []
  | File f :: rest => f :: filesOf rest
  | Contents _ :: rest => filesOf rest
  end.

Lemma nodeResolver_cases (CSS_EXTENSIONS : list string)
  (styleResolve : string -> string -> completion (option string))
  (resolved : Resolved) (url prev : string) :
  nodeResolver CSS_EXTENSIONS styleResolve resolved url prev
  = Return (Contents "", resolved) \/
  exists file,
    (file ∉ resolved) /\
    nodeResolver CSS_EXTENSIONS styleResolve resolved url prev
    = Return (File file, resolved ++ [file]).
Proof.
  destruct (endsOn_total CSS_EXTENSIONS styleResolve url prev) as [final Hf].
  destruct (decide (final ∈ resolved)) as [Hin | Hnin].
  - left. now apply (nodeResolver_seen _ _ _ _ _ final).
  - right. exists final. split; [exact Hnin |].
    now apply nodeResolver_fresh.
Qed.

(** Whatever the resolution routine does, throwing included, a call of the
    resolver returns: either empty contents, the list of resolved paths left
    as it is, or a file that was not in the list and is appended to it. *)
Theorem nodeResolver_returns (CSS_EXTENSIONS : list string)
  (styleResolve : string -> string -> completion (option string))
  (resolved : Resolved) (url prev : string) :
  nodeResolver CSS_EXTENSIONS styleResolve resolved url prev
  = Return (Contents "", resolved) \/
  exists file,
    (file ∉ resolved) /\
    nodeResolver CSS_EXTENSIONS styleResolve resolved url prev
    = Return (File file, resolved ++ [file]).
Proof. apply nodeResolver_cases. Qed.

(** Over any run of calls on one instance, the list of resolved paths is
    the list it started from followed by the files handed out, in order;
    it never gets a duplicate, so no file is handed out twice. *)
Theorem calls_record_files (CSS_EXTENSIONS : list string)
  (styleResolve : string -> string -> completion (option string))
  (requests : list (string * string)) (resolved : Resolved) :
  exists results resolved',
    calls CSS_EXTENSIONS styleResolve resolved requests
    = Return (results, resolved') /\
    length results = length requests /\
    resolved' = resolved ++ filesOf results /\
    (NoDup resolved -> NoDup resolved').
Proof.
  revert resolved. induction requests as [|[url prev] rest IH];
    intros resolved; simpl.
  - exists [], resolved. rewrite app_nil_r. auto.
  - destruct (nodeResolver_cases CSS_EXTENSIONS styleResolve resolved
                url prev) as [-> | (file & Hn & ->)]; simpl.
    + destruct (IH resolved) as (rs & resolved' & -> & Hl & Hr & Hd). simpl.
      exists (Contents "" :: rs), resolved'. simpl. auto.
    + destruct (IH (resolved ++ [file]))
        as (rs & resolved' & -> & Hl & Hr & Hd). simpl.
      exists (File file :: rs), resolved'. simpl.
      split; [reflexivity |]. split; [lia |].
      split; [now rewrite Hr, <- app_assoc |].
      intros Hnd. apply Hd. apply NoDup_app. split; [exact Hnd |].
      split; [|apply NoDup_singleton].
      intros x Hx Hx'. apply list_elem_of_singleton in Hx'. now subst.
Qed.

Lemma stripPrefix_tilde s : stripPrefix ("~" +:+ s) = s.
Proof.
  unfold stripPrefix.
  replace (startsWith ("~" +:+ s) "~") with true by now destruct s.
  change ("~" +:+ s) with (String "~" s). simpl.
  rewrite Nat.sub_0_r. apply EmitSetupFacts.substring_all.
Qed.

Lemma stripPrefix_package s : stripPrefix ("package:" +:+ s) = s.
Proof.
  unfold stripPrefix.
  replace (startsWith ("package:" +:+ s) "~") with false by reflexivity.
  replace (startsWith ("package:" +:+ s) "package:") with true
    by now destruct s.
  change ("package:" +:+ s)
    with (String "p" (String "a" (String "c" (String "k" (String "a"
            (String "g" (String "e" (String ":" s)))))))).
  simpl. rewrite Nat.sub_0_r. apply EmitSetupFacts.substring_all.
Qed.

(** The two prefixes for imports from node_modules are one and the same to
    the resolver, and only one prefix is taken off: [~name] and
    [package:name] are both resolved as [name] is written, whatever [name]
    starts with. *)
Theorem nodeResolver_prefixes (CSS_EXTENSIONS : list string)
  (styleResolve : string -> string -> completion (option string))
  (resolved : Resolved) (name prev : string) :
  stripPrefix ("~" +:+ name) = name /\
  stripPrefix ("package:" +:+ name) = name /\
  nodeResolver CSS_EXTENSIONS styleResolve resolved ("~" +:+ name) prev
  = nodeResolver CSS_EXTENSIONS styleResolve resolved ("package:" +:+ name)
                 prev.
Proof.
  split; [apply stripPrefix_tilde |]. split; [apply stripPrefix_package |].
  unfold nodeResolver. now rewrite stripPrefix_tilde, stripPrefix_package.
Qed.




(** The first candidate that resolves decides: the candidates after it are
    not consulted, and a plain form is preferred to every partial form. *)
Theorem nodeResolver_first_hit (CSS_EXTENSIONS : list string)
  (styleResolve : string -> string -> completion (option string))
  (resolved : Resolved) (url prev : string)
  (before : list string) (modCheck : string) (after : list string)
  (found : string) :
  toCheck CSS_EXTENSIONS (stripPrefix url)
  = Return (before ++ modCheck :: after) ->
  (forall c, c ∈ before -> misses styleResolve prev c) ->
  styleResolve modCheck prev = Return (Some found) -> found <> "" ->
  (Some found ∉ resolved ->
   nodeResolver CSS_EXTENSIONS styleResolve resolved url prev
   = Return (File (Some found), resolved ++ [Some found])) /\
  (Some found ∈ resolved ->
   nodeResolver CSS_EXTENSIONS styleResolve resolved url prev
   = Return (Contents "", resolved)).
Proof.
  intros Hc Hm Hr Hne.
  assert (He : endsOn CSS_EXTENSIONS styleResolve url prev (Some found)).
  { exists (before ++ modCheck :: after). split; [exact Hc |].
    now apply search_first_hit. }
  split; intros H.
  - now apply nodeResolver_fresh.
  - now apply (nodeResolver_seen _ _ _ _ _ (Some found)).
Qed.

(** A resolution routine for which every stylesheet exists where it is
    asked for. *)
Definition everythingResolves (modCheck prev : string)
  : completion (option string) := Return (Some ("/repo/" +:+ modCheck)).

Lemma nodeResolver_first_hit_witness :
  nodeResolver [".css"; ".scss"] everythingResolves [] "theme/button"
               "main.scss"
  = Return (File (Some "/repo/theme/button.css"),
            [Some "/repo/theme/button.css"]).
Proof.
  apply (proj1 (nodeResolver_first_hit [".css"; ".scss"] everythingResolves
                  [] "theme/button" "main.scss" [] "theme/button.css"
                  ["theme/button.scss"; "theme/_button.css";
                   "theme/_button.scss"]
                  "/repo/theme/button.css" eq_refl
                  ltac:(intros c H; inversion H) eq_refl
                  ltac:(discriminate))).
  intros H. inversion H.
Defined.

(** The candidates of [alternatives] outside the case of an extensionless
    name that is no partial: a name with an extension is tried as it is
    and then as a partial; a name that is a partial already gets no
    underscore-prefixed forms. *)
Theorem alternatives_other_shapes (CSS_EXTENSIONS : list string)
  (url : string) :
  (path.extname url <> "" -> notPartial url = true ->
   alternatives CSS_EXTENSIONS url = Return [url; partialOf url]) /\
  (path.extname url <> "" -> notPartial url = false ->
   alternatives CSS_EXTENSIONS url = Return [url]) /\
  (path.extname url = "" -> notPartial url = false ->
   alternatives CSS_EXTENSIONS url
   = Return (map (fun ext => url +:+ ext) CSS_EXTENSIONS)).
Proof.
  rewrite alternatives_spec. unfold plainForms.
  destruct (String.eqb_spec (path.extname url) "") as [He | He]; simpl;
    repeat split; intros H1 H2; try congruence; now rewrite H2.
Qed.

Lemma alternatives_other_shapes_witness :
  alternatives [".css"; ".scss"] "theme/button.scss"
  = Return ["theme/button.scss"; "theme/_button.scss"] /\
  alternatives [".css"; ".scss"] "theme/_button.scss"
  = Return ["theme/_button.scss"] /\
  alternatives [".css"; ".scss"] "theme/_button"
  = Return ["theme/_button.css"; "theme/_button.scss"].
Proof.
  split; [|split].
  - apply (proj1 (alternatives_other_shapes [".css"; ".scss"]
                    "theme/button.scss")); [discriminate | reflexivity].
  - apply (proj1 (proj2 (alternatives_other_shapes [".css"; ".scss"]
                           "theme/_button.scss")));
      [discriminate | reflexivity].
  - apply (proj2 (proj2 (alternatives_other_shapes [".css"; ".scss"]
                           "theme/_button"))); reflexivity.
Defined.

End ResolverMore.

(** ** More on the transform pipeline *)

Module PipelineMore.
Import Js JsFacts Transform Steps MarkerFacts PipelineFacts.

Section Merging.
Variable MapNode : Type.
Variable addVLQMap : SourceMap.t -> completion MapNode.
Variable extends : MapNode -> MapNode -> completion MapNode.
Variable toVLQ : MapNode -> completion SourceMap.t.

Local Abbreviation node := (reduce MapNode addVLQMap extends).
Local Abbreviation merge := (mergeSourcemaps MapNode addVLQMap extends toVLQ).

Lemma reduce_app l1 l2 : forall acc,
  node (l1 ++ l2) acc = (acc' ← node l1 acc; node l2 acc').
Proof.
  induction l1 as [|m l1 IH]; intros acc; simpl; [reflexivity |].
  destruct (mergeStep MapNode addVLQMap extends acc m) as [n|e]; simpl;
    [apply IH | reflexivity].
Qed.

(** Once there is a map under construction, there is one to the end. *)
Lemma reduce_Some l : forall acc r,
  node l acc = Return r -> l <> [] \/ acc <> None -> r <> None.
Proof.
  induction l as [|m l IH]; intros acc r; simpl.
  - intros [= <-] [H | H]; [congruence | exact H].
  - destruct (mergeStep MapNode addVLQMap extends acc m) as [n|e]; simpl;
      [|discriminate].
    intros H _. apply (IH _ _ H). now right.
Qed.

Lemma mergeSourcemaps_None l : merge l = Return None -> l = [].
Proof.
  unfold mergeSourcemaps. destruct l as [|m l]; [reflexivity |].
  destruct (node (m :: l) None) as [[n|]|e] eqn:E; simpl.
  - destruct (toVLQ n); discriminate.
  - exfalso. apply (reduce_Some _ _ _ E); [left; discriminate | reflexivity].
  - discriminate.
Qed.
End Merging.

(** The map as it is handed to the library: version 3 unless it has its
    own, the mappings without their trailing semicolons. *)
Definition prepared (m : SourceMap.t) : SourceMap.t :=
  setMappings (stripSemicolons (SourceMap.mappings m)) (withVersion3 m).

(** [mergeSourcemaps] returns null for the empty list only. One map is
    passed through the library; every further map is extended with what
    the maps before it gave; an exception of the library while the maps
    are reduced ends the merge, whatever maps follow. A map that is
    returned has a version. *)
Theorem mergeSourcemaps_chain (MapNode : Type)
  (addVLQMap : SourceMap.t -> completion MapNode)
  (extends : MapNode -> MapNode -> completion MapNode)
  (toVLQ : MapNode -> completion SourceMap.t) :
  let merge := mergeSourcemaps MapNode addVLQMap extends toVLQ in
  let node l := reduce MapNode addVLQMap extends l None in
  (forall l, merge l = Return None <-> l = []) /\
  (forall m,
      merge [m]
      = (mergedMap ← addVLQMap (prepared m);
         vlq ← toVLQ mergedMap;
         Return (Some (withVersion3 vlq)))) /\
  (forall l m previous,
      node l = Return (Some previous) ->
      merge (l ++ [m])
      = (mergedMap ← addVLQMap (prepared m);
         extended ← extends mergedMap previous;
         vlq ← toVLQ extended;
         Return (Some (withVersion3 vlq)))) /\
  (forall l rest e, node l = Throw e -> merge (l ++ rest) = Throw e) /\
  (forall l merged, merge l = Return (Some merged) ->
                    SourceMap.version merged <> None).
Proof.
  intros merge node. split; [|split; [|split; [|split]]].
  - intros l. split; [apply mergeSourcemaps_None | now intros ->].
  - intros m. unfold merge, mergeSourcemaps. simpl. unfold mergeStep.
    fold (prepared m). now destruct (addVLQMap (prepared m)).
  - intros l m previous Hp.
    unfold merge, mergeSourcemaps. rewrite reduce_app. fold (node l).
    rewrite Hp. simpl. unfold mergeStep. fold (prepared m).
    destruct (addVLQMap (prepared m)) as [mergedMap|e]; simpl; [|reflexivity].
    now destruct (extends mergedMap previous).
  - intros l rest e He. unfold merge, mergeSourcemaps.
    rewrite reduce_app. fold (node l). now rewrite He.
  - intros l merged. unfold merge, mergeSourcemaps.
    destruct (reduce MapNode addVLQMap extends l None) as [[n|]|e]; simpl;
      try discriminate.
    destruct (toVLQ n) as [vlq|e]; simpl; [|discriminate].
    intros [= <-]. unfold withVersion3. simpl.
    now destruct (SourceMap.version vlq).
Qed.

(** A source-map library that rejects mappings that are not VLQ text. *)
Definition rejectsBang (m : SourceMap.t) : completion unit :=
  if Js.includes "!" (SourceMap.mappings m)
  then Throw (OtherError "[parcel-sourcemap] invalid mappings")
  else Return tt.

Definition badMap : SourceMap.t :=
  {| SourceMap.version := Some 3; SourceMap.sources := [];
     SourceMap.names := []; SourceMap.sourceRoot := None;
     SourceMap.sourcesContent := None; SourceMap.mappings := "!!!";
     SourceMap.file := None |}.

Lemma mergeSourcemaps_chain_witness :
  mergeSourcemaps unit rejectsBang extendsAll emptyVLQ
    ([emptyMap] ++ [emptyMap])
  = Return (Some (withVersion3 emptyMap)) /\
  mergeSourcemaps unit rejectsBang extendsAll emptyVLQ
    ([emptyMap; badMap] ++ [emptyMap])
  = Throw (OtherError "[parcel-sourcemap] invalid mappings").
Proof.
  destruct (mergeSourcemaps_chain unit rejectsBang extendsAll emptyVLQ)
    as (_ & _ & H3 & H4 & _).
  split.
  - rewrite (H3 [emptyMap] emptyMap tt eq_refl). reflexivity.
  - apply H4. reflexivity.
Defined.

Section Trimming.
Context {A : Type} (p : A -> bool).

(** [l] without the longest suffix whose elements satisfy [p]. *)
Definition dropEnd (l : list A) : list A := rev (path.dropWhile p (rev l)).

Lemma dropWhile_split (l : list A) :
  exists dropped,
    l = dropped ++ path.dropWhile p l /\ Forall (fun a => p a = true) dropped.
Proof.
  induction l as [|a l IH]; simpl.
  - exists []. split; [reflexivity | constructor].
  - destruct (p a) eqn:E.
    + destruct IH as (d & Hd & Hf). exists (a :: d).
      split; [simpl; now rewrite <- Hd | now constructor].
    + exists []. split; [reflexivity | constructor].
Qed.

Lemma dropWhile_head (l : list A) a rest :
  path.dropWhile p l = a :: rest -> p a = false.
Proof.
  induction l as [|b l IH]; simpl; [discriminate |].
  destruct (p b) eqn:E; [exact IH | now intros [= <- <-]].
Qed.

Lemma dropEnd_split (l : list A) :
  exists dropped,
    l = dropEnd l ++ dropped /\ Forall (fun a => p a = true) dropped.
Proof.
  destruct (dropWhile_split (rev l)) as (d & Hd & Hf).
  exists (rev d). split.
  - unfold dropEnd. rewrite <- rev_app_distr, <- Hd. now rewrite rev_involutive.
  - apply Forall_rev. exact Hf.
Qed.

Lemma dropEnd_last (l init : list A) a :
  dropEnd l = init ++ [a] -> p a = false.
Proof.
  unfold dropEnd. intros H.
  apply (f_equal (@rev A)) in H.
  rewrite rev_involutive, rev_app_distr in H. simpl in H.
  exact (dropWhile_head _ _ _ H).
Qed.

Lemma dropEnd_keep (l : list A) a :
  p a = false -> dropEnd (l ++ [a]) = l ++ [a].
Proof.
  intros H. unfold dropEnd. rewrite rev_app_distr. simpl. rewrite H.
  change (a :: rev l) with ([a] ++ rev l).
  now rewrite rev_app_distr, rev_involutive.
Qed.
End Trimming.

(** [replace(/;*$/, '')] only takes semicolons off the end, and takes them
    all: the mappings are what is left followed by semicolons, and what is
    left does not end in a semicolon. *)
Theorem stripSemicolons_spec (mappings : string) :
  (exists n,
      mappings
      = stripSemicolons mappings +:+ path.text (repeat ";"%char n)) /\
  (forall init, stripSemicolons mappings <> init +:+ ";") /\
  stripSemicolons (stripSemicolons mappings) = stripSemicolons mappings.
Proof.
  unfold stripSemicolons.
  fold (dropEnd (fun a => Ascii.eqb a ";") (path.chars mappings)).
  set (p := fun a => Ascii.eqb a ";").
  split; [|split].
  - destruct (dropEnd_split p (path.chars mappings)) as (d & Hd & Hf).
    exists (length d).
    assert (Hr : d = repeat ";"%char (length d)).
    { clear Hd. induction Hf as [|a d Ha _ IH]; [reflexivity |].
      simpl. apply Ascii.eqb_eq in Ha. now rewrite Ha, <- IH. }
    rewrite <- Hr, <- text_app, <- Hd. now rewrite text_chars.
  - intros init H. apply (f_equal path.chars) in H.
    rewrite chars_text, chars_app in H.
    apply dropEnd_last in H. discriminate.
  - rewrite chars_text.
    fold (dropEnd p (dropEnd p (path.chars mappings))).
    f_equal.
    destruct (dropEnd p (path.chars mappings)) as [|a l] eqn:E
      using rev_ind; [reflexivity |].
    apply dropEnd_keep. exact (dropEnd_last p _ _ _ E).
Qed.

Lemma update_frame pipeline result :
  Pipeline.contents (update pipeline result) = Pipeline.contents pipeline /\
  exists added,
    Pipeline.sourceMaps (update pipeline result)
    = Pipeline.sourceMaps pipeline ++ added /\
    length added <= 1.
Proof.
  split; [reflexivity |]. unfold update; simpl.
  destruct (negb _).
  - exists [TransformResult.map result]. split; [reflexivity | simpl; lia].
  - exists []. split; [now rewrite app_nil_r | simpl; lia].
Qed.

Lemma pipe_inv pipeline options callback pipeline' :
  pipe pipeline options callback = Return pipeline' ->
  exists result,
    transform (Pipeline.code pipeline) options callback = Return result /\
    pipeline' = update pipeline result.
Proof.
  unfold pipe.
  destruct (transform _ options callback) as [result|e]; simpl;
    [|discriminate].
  intros [= <-]. eauto.
Qed.

(** Through any sequence of steps that returns, the original contents stay
    what they were, the maps collected before stay at the front of the
    list, and at most one map is added for each step. *)
Theorem pipeAll_keeps_contents (options : TransformOptions.t)
  (callbacks : list TransformCallack) (pipeline pipeline' : Pipeline.t) :
  pipeAll pipeline options callbacks = Return pipeline' ->
  Pipeline.contents pipeline' = Pipeline.contents pipeline /\
  exists added,
    Pipeline.sourceMaps pipeline' = Pipeline.sourceMaps pipeline ++ added /\
    length added <= length callbacks.
Proof.
  revert pipeline. induction callbacks as [|callback rest IH];
    intros pipeline; simpl.
  - intros [= <-]. split; [reflexivity |].
    exists []. split; [now rewrite app_nil_r | simpl; lia].
  - destruct (pipe pipeline options callback) as [p1|e] eqn:E; simpl;
      [|discriminate].
    intros H. destruct (IH _ H) as (Hc & added & Hm & Hl).
    destruct (pipe_inv _ _ _ _ E) as (result & _ & ->).
    destruct (update_frame pipeline result) as (Hc1 & added1 & Hm1 & Hl1).
    split; [congruence |].
    exists (added1 ++ added). split.
    + now rewrite Hm, Hm1, <- app_assoc.
    + rewrite List.length_app. simpl. lia.
Qed.

Lemma pipeAll_keeps_contents_witness :
  exists pipeline',
    pipeAll samplePipeline noOptions [appendSemicolon; leaveAlone; retag]
    = Return pipeline' /\
    Pipeline.contents pipeline' = "let a: number = 1" /\
    exists added,
      Pipeline.sourceMaps pipeline' = [] ++ added /\ length added <= 3.
Proof.
  eexists. split; [reflexivity |].
  exact (pipeAll_keeps_contents noOptions
           [appendSemicolon; leaveAlone; retag] samplePipeline _ eq_refl).
Defined.

(** A step that only edits the buffer and returns nothing never touches
    the loader and the target; its generated map is the one appended when
    the text changed. *)
Theorem pipe_edit_keeps_tags (pipeline : Pipeline.t)
  (options : TransformOptions.t) (callback : TransformCallack)
  (text : string) (generated : SourceMap.t) :
  callback (Pipeline.code pipeline) options = Return (Edited text generated) ->
  exists pipeline',
    pipe pipeline options callback = Return pipeline' /\
    Pipeline.loader pipeline' = Pipeline.loader pipeline /\
    Pipeline.target pipeline' = Pipeline.target pipeline /\
    (text <> Pipeline.code pipeline ->
     Pipeline.code pipeline' = text /\
     Pipeline.sourceMaps pipeline'
     = Pipeline.sourceMaps pipeline ++ [Some generated]).
Proof.
  intros H. unfold pipe, transform. rewrite H. simpl.
  eexists. split; [reflexivity |]. split; [reflexivity |].
  split; [reflexivity |]. intros Hne.
  destruct (update_changed pipeline
              {| TransformResult.code := text;
                 TransformResult.map := Some generated;
                 TransformResult.loader := None;
                 TransformResult.target := None |} Hne) as [Hm Hc].
  split; [exact Hc | exact Hm].
Qed.

Lemma pipe_edit_keeps_tags_witness :
  exists pipeline',
    pipe samplePipeline noOptions appendSemicolon = Return pipeline' /\
    Pipeline.loader pipeline' = "ts" /\
    Pipeline.target pipeline' = "typescript".
Proof.
  destruct (pipe_edit_keeps_tags samplePipeline noOptions appendSemicolon
              _ _ eq_refl) as (p' & H1 & H2 & H3 & _).
  exists p'. split; [exact H1 |]. split; [exact H2 | exact H3].
Defined.

(** The TypeScript step: when esbuild and the parse of its map return, the
    pipeline is tagged [js] and [es2020] whether or not the text changed;
    when esbuild throws, or its map does not parse, the step throws the
    same exception. *)
Theorem pipe_typescript
  (esbuild_transform :
     string -> option string -> option string -> option string ->
     option string -> completion (string * string))
  (JSON_parse : string -> completion (option SourceMap.t))
  (config : TypeScriptConfig) (pipeline : Pipeline.t)
  (options : TransformOptions.t) :
  let step := createTypeScriptTransform esbuild_transform JSON_parse config in
  let called :=
    esbuild_transform (Pipeline.code pipeline)
      (TransformOptions.source options) (configLoader config)
      (jsxFactory config) (jsxFragment config) in
  (forall code map parsed,
      called = Return (code, map) -> JSON_parse map = Return parsed ->
      exists pipeline',
        pipe pipeline options step = Return pipeline' /\
        Pipeline.loader pipeline' = "js" /\
        Pipeline.target pipeline' = "es2020" /\
        (code <> Pipeline.code pipeline ->
         Pipeline.code pipeline' = code /\
         Pipeline.sourceMaps pipeline'
         = Pipeline.sourceMaps pipeline ++ [parsed])) /\
  (forall e, called = Throw e -> pipe pipeline options step = Throw e) /\
  (forall code map e,
      called = Return (code, map) -> JSON_parse map = Throw e ->
      pipe pipeline options step = Throw e).
Proof.
  intros step called. unfold step, called, pipe, transform,
    createTypeScriptTransform, parseSourcemap.
  split; [|split].
  - intros code map parsed -> Hp. simpl. rewrite Hp. simpl.
    eexists. split; [reflexivity |]. split; [reflexivity |].
    split; [reflexivity |]. intros Hne.
    destruct (update_changed pipeline
                {| TransformResult.code := code;
                   TransformResult.map := parsed;
                   TransformResult.loader := Some "js";
                   TransformResult.target := Some TARGETS.es2020 |} Hne)
      as [Hm Hc].
    split; [exact Hc | exact Hm].
  - intros e ->. reflexivity.
  - intros code map e -> Hp. simpl. now rewrite Hp.
Qed.

(** An esbuild that strips the type annotation. *)
Definition stripTypes (contents : string)
  (sourcefile loader jsxFactory jsxFragment : option string)
  : completion (string * string) := Return ("let a = 1", "{}").

Lemma pipe_typescript_witness :
  exists pipeline',
    pipe samplePipeline noOptions
      (createTypeScriptTransform stripTypes (fun _ => Return (Some emptyMap))
         {| configLoader := Some "ts"; jsxFactory := None;
            jsxFragment := None |})
    = Return pipeline' /\
    Pipeline.loader pipeline' = "js" /\
    Pipeline.target pipeline' = "es2020".
Proof.
  destruct (proj1 (pipe_typescript stripTypes
                     (fun _ => Return (Some emptyMap))
                     {| configLoader := Some "ts"; jsxFactory := None;
                        jsxFragment := None |} samplePipeline noOptions)
              "let a = 1" "{}" (Some emptyMap) eq_refl eq_refl)
    as (p' & H1 & H2 & H3 & _).
  exists p'. split; [exact H1 |]. split; [exact H2 | exact H3].
Defined.

Section Finalizing.
Variable base64 : string -> string.
Variable JSON_stringify : SourceMap.t -> string.
Variable MapNode : Type.
Variable addVLQMap : SourceMap.t -> completion MapNode.
Variable extends : MapNode -> MapNode -> completion MapNode.
Variable toVLQ : MapNode -> completion SourceMap.t.

Local Abbreviation final :=
  (finalize base64 JSON_stringify MapNode addVLQMap extends toVLQ).
Local Abbreviation merge := (mergeSourcemaps MapNode addVLQMap extends toVLQ).

(** The four conditions under which [finalize] goes on to merge. *)
Definition merges (pipeline : Pipeline.t) (options : TransformOptions.t)
  : Prop :=
  2 <= length (Pipeline.sourceMaps pipeline) /\
  Pipeline.code pipeline <> Pipeline.contents pipeline /\
  enabled (sourcemapOf options) = true /\
  presentMaps (Pipeline.sourceMaps pipeline) <> [].

(** The map [finalize] returns, made from the merged one. *)
Definition stamped (options : TransformOptions.t) (merged : SourceMap.t)
  : SourceMap.t :=
  let named :=
    if truthy (TransformOptions.source options)
    then setFile (TransformOptions.source options) merged
    else setFile None merged in
  if negb (sourcesContentOf options) then deleteSourcesContent named
  else named.

(** What [finalize] does when it merges: the merge decides. *)
Lemma finalize_merging pipeline options :
  merges pipeline options ->
  final pipeline options
  = match merge (presentMaps (Pipeline.sourceMaps pipeline)) with
    | Throw e => Throw e
    | Return None => Return (withoutMap pipeline)
    | Return (Some merged) =>
        Return
          {| TransformResult.code :=
               match sourcemapOf options with
               | TransformOptions.Inline =>
                   inlineSourcemap base64 JSON_stringify
                     (Pipeline.code pipeline) (stamped options merged)
               | TransformOptions.Bool _ => Pipeline.code pipeline
               end;
             TransformResult.map := Some (stamped options merged);
             TransformResult.loader := Some (Pipeline.loader pipeline);
             TransformResult.target := None |}
    end.
Proof.
  intros (H1 & H2 & H3 & H4). unfold finalize.
  destruct (Nat.ltb_spec (length (Pipeline.sourceMaps pipeline)) 2);
    [lia |].
  destruct (String.eqb_spec (Pipeline.code pipeline)
                            (Pipeline.contents pipeline)); [contradiction |].
  rewrite H3. simpl.
  destruct (merge (presentMaps (Pipeline.sourceMaps pipeline)))
    as [[merged|]|e]; reflexivity.
Qed.

Lemma finalize_not_merged pipeline options :
  ~ merges pipeline options ->
  final pipeline options = Return (withoutMap pipeline).
Proof.
  intros Hn. unfold finalize.
  destruct (Nat.ltb_spec (length (Pipeline.sourceMaps pipeline)) 2)
    as [|H1]; [reflexivity |].
  destruct (String.eqb_spec (Pipeline.code pipeline)
                            (Pipeline.contents pipeline)) as [|H2];
    [reflexivity |].
  destruct (enabled (sourcemapOf options)) eqn:H3; [|reflexivity]. simpl.
  destruct (presentMaps (Pipeline.sourceMaps pipeline)) as [|m l] eqn:H4;
    [reflexivity |].
  exfalso. apply Hn. unfold merges. rewrite H4.
  repeat split; auto; discriminate.
Qed.

Lemma merges_dec pipeline options :
  merges pipeline options \/ ~ merges pipeline options.
Proof.
  unfold merges.
  destruct (Nat.le_gt_cases 2 (length (Pipeline.sourceMaps pipeline)));
    [|right; intros (H1 & _); lia].
  destruct (String.string_dec (Pipeline.code pipeline)
                          (Pipeline.contents pipeline));
    [right; intros (_ & H2 & _); contradiction |].
  destruct (enabled (sourcemapOf options));
    [|right; intros (_ & _ & H3 & _); discriminate].
  destruct (presentMaps (Pipeline.sourceMaps pipeline));
    [right; intros (_ & _ & _ & H4); contradiction |].
  left. repeat split; auto; discriminate.
Qed.

(** The three ways [finalize] ends. *)
Lemma finalize_cases pipeline options :
  (~ merges pipeline options /\
   final pipeline options = Return (withoutMap pipeline)) \/
  (merges pipeline options /\
   exists e, merge (presentMaps (Pipeline.sourceMaps pipeline)) = Throw e /\
             final pipeline options = Throw e) \/
  (merges pipeline options /\
   exists merged,
     merge (presentMaps (Pipeline.sourceMaps pipeline))
     = Return (Some merged) /\
     final pipeline options
     = Return
         {| TransformResult.code :=
              match sourcemapOf options with
              | TransformOptions.Inline =>
                  inlineSourcemap base64 JSON_stringify
                    (Pipeline.code pipeline) (stamped options merged)
              | TransformOptions.Bool _ => Pipeline.code pipeline
              end;
            TransformResult.map := Some (stamped options merged);
            TransformResult.loader := Some (Pipeline.loader pipeline);
            TransformResult.target := None |}).
Proof.
  destruct (merges_dec pipeline options) as [Hm | Hn].
  - right. rewrite (finalize_merging _ _ Hm).
    destruct (merge (presentMaps (Pipeline.sourceMaps pipeline)))
      as [[merged|]|e] eqn:E.
    + right. split; [exact Hm |]. exists merged. split; reflexivity.
    + exfalso. destruct Hm as (_ & _ & _ & H4). apply H4.
      exact (mergeSourcemaps_None MapNode addVLQMap extends toVLQ _ E).
    + left. split; [exact Hm |]. exists e. split; reflexivity.
  - left. split; [exact Hn |]. now apply finalize_not_merged.
Qed.
End Finalizing.

(** [finalize] returns a map only when at least two maps were collected,
    the text differs from the original contents, map generation is on, and
    not every collected map is null. Under these conditions it returns a
    map or throws, and throws exactly what [mergeSourcemaps] throws on the
    collected maps; it never throws otherwise. *)
Theorem finalize_map_iff
  (base64 : string -> string) (JSON_stringify : SourceMap.t -> string)
  (MapNode : Type) (addVLQMap : SourceMap.t -> completion MapNode)
  (extends : MapNode -> MapNode -> completion MapNode)
  (toVLQ : MapNode -> completion SourceMap.t)
  (pipeline : Pipeline.t) (options : TransformOptions.t) :
  let final := finalize base64 JSON_stringify MapNode addVLQMap extends
                        toVLQ pipeline options in
  let conditions :=
    2 <= length (Pipeline.sourceMaps pipeline) /\
    Pipeline.code pipeline <> Pipeline.contents pipeline /\
    enabled (sourcemapOf options) = true /\
    presentMaps (Pipeline.sourceMaps pipeline) <> [] in
  (forall result,
      final = Return result ->
      (TransformResult.map result <> None <-> conditions)) /\
  (forall e,
      final = Throw e
      <-> conditions /\
          mergeSourcemaps MapNode addVLQMap extends toVLQ
            (presentMaps (Pipeline.sourceMaps pipeline)) = Throw e).
Proof.
  intros final conditions. unfold final.
  destruct (finalize_cases base64 JSON_stringify MapNode addVLQMap extends
              toVLQ pipeline options)
    as [(Hn & ->) | [(Hm & e & He & ->) | (Hm & merged & Hr & ->)]].
  - split.
    + intros result [= <-]. simpl. split; [congruence | intros H; now destruct Hn].
    + intros e. split; [discriminate | intros [H _]; now destruct Hn].
  - split.
    + intros result H. discriminate.
    + intros e'. split.
      * intros [= <-]. split; [exact Hm | exact He].
      * intros [_ H]. congruence.
  - split.
    + intros result [= <-]. simpl. split; [intros _; exact Hm | discriminate].
    + intros e. split; [discriminate | intros [_ H]; congruence].
Qed.

(** When [finalize] returns a map, its [file] is the source name of the
    options, or absent when there is none; its source contents are
    removed when the options ask for it; and the loader of the result is
    the loader of the pipeline. *)
Theorem finalize_stamps
  (base64 : string -> string) (JSON_stringify : SourceMap.t -> string)
  (MapNode : Type) (addVLQMap : SourceMap.t -> completion MapNode)
  (extends : MapNode -> MapNode -> completion MapNode)
  (toVLQ : MapNode -> completion SourceMap.t)
  (pipeline : Pipeline.t) (options : TransformOptions.t)
  (result : TransformResult.t) (finalMap : SourceMap.t) :
  finalize base64 JSON_stringify MapNode addVLQMap extends toVLQ
           pipeline options = Return result ->
  TransformResult.map result = Some finalMap ->
  SourceMap.file finalMap
  = (if truthy (TransformOptions.source options)
     then TransformOptions.source options else None) /\
  (TransformOptions.sourcesContent options = Some false ->
   SourceMap.sourcesContent finalMap = None) /\
  TransformResult.loader result = Some (Pipeline.loader pipeline).
Proof.
  destruct (finalize_cases base64 JSON_stringify MapNode addVLQMap extends
              toVLQ pipeline options)
    as [(Hn & ->) | [(Hm & e & He & ->) | (Hm & merged & Hr & ->)]].
  - intros [= <-]. discriminate.
  - discriminate.
  - intros [= <-]. simpl. intros [= <-]. unfold stamped.
    split; [|split; [|reflexivity]].
    + destruct (negb (sourcesContentOf options)),
        (truthy (TransformOptions.source options)); reflexivity.
    + intros Hs. unfold sourcesContentOf. rewrite Hs. simpl.
      now destruct (truthy (TransformOptions.source options)).
Qed.

(** [finalize] never rewrites the text. The code it returns is the code of
    the pipeline whenever the map is null or the mode is not [inline]; in
    the [inline] mode with a map, it is the code of the pipeline followed
    by a line feed and the source-map comment that carries this map. *)
Theorem finalize_code
  (base64 : string -> string) (JSON_stringify : SourceMap.t -> string)
  (MapNode : Type) (addVLQMap : SourceMap.t -> completion MapNode)
  (extends : MapNode -> MapNode -> completion MapNode)
  (toVLQ : MapNode -> completion SourceMap.t)
  (pipeline : Pipeline.t) (options : TransformOptions.t)
  (result : TransformResult.t) :
  finalize base64 JSON_stringify MapNode addVLQMap extends toVLQ
           pipeline options = Return result ->
  (TransformResult.map result = None \/
   sourcemapOf options <> TransformOptions.Inline ->
   TransformResult.code result = Pipeline.code pipeline) /\
  (forall finalMap,
      sourcemapOf options = TransformOptions.Inline ->
      TransformResult.map result = Some finalMap ->
      TransformResult.code result
      = Pipeline.code pipeline +:+ newline
          +:+ "//# sourceMappingURL=data:application/json;base64,"
          +:+ base64 (JSON_stringify finalMap)).
Proof.
  destruct (finalize_cases base64 JSON_stringify MapNode addVLQMap extends
              toVLQ pipeline options)
    as [(Hn & ->) | [(Hm & e & He & ->) | (Hm & merged & Hr & ->)]].
  - intros [= <-]. split; [reflexivity | discriminate].
  - discriminate.
  - intros [= <-]. simpl. split.
    + intros [H | H]; [discriminate |].
      destruct (sourcemapOf options); [congruence | reflexivity].
    + intros finalMap -> [= <-]. reflexivity.
Qed.

(** A pipeline with two collected maps and a changed text. *)
Definition twoSteps : Pipeline.t :=
  {| Pipeline.contents := "let a: number = 1"; Pipeline.code := "let a = 1;";
     Pipeline.sourceMaps := [Some emptyMap; None; Some emptyMap];
     Pipeline.target := "es2020"; Pipeline.loader := "js" |}.

Definition namedOptions : TransformOptions.t :=
  {| TransformOptions.source := Some "a.ts";
     TransformOptions.sourcemap := None;
     TransformOptions.sourcesContent := Some false |}.

Definition inlineOptions : TransformOptions.t :=
  {| TransformOptions.source := Some "a.ts";
     TransformOptions.sourcemap := Some TransformOptions.Inline;
     TransformOptions.sourcesContent := None |}.

Lemma finalize_code_witness :
  exists result finalMap,
    finalize (fun _ => "e30=") (fun _ => "{}") unit acceptsAll extendsAll
             emptyVLQ twoSteps inlineOptions = Return result /\
    TransformResult.map result = Some finalMap /\
    TransformResult.code result
    = "let a = 1;" +:+ newline
        +:+ "//# sourceMappingURL=data:application/json;base64,e30=".
Proof.
  eexists. eexists. split; [reflexivity |]. split; [reflexivity |].
  exact (proj2 (finalize_code (fun _ => "e30=") (fun _ => "{}") unit
                  acceptsAll extendsAll emptyVLQ twoSteps inlineOptions
                  _ eq_refl) _ eq_refl eq_refl).
Defined.

Lemma finalize_stamps_witness :
  exists result finalMap,
    finalize id (fun _ => "") unit acceptsAll extendsAll emptyVLQ
             twoSteps namedOptions = Return result /\
    TransformResult.map result = Some finalMap /\
    SourceMap.file finalMap = Some "a.ts" /\
    SourceMap.sourcesContent finalMap = None.
Proof.
  eexists. eexists. split; [reflexivity |]. split; [reflexivity |].
  destruct (finalize_stamps id (fun _ => "") unit acceptsAll extendsAll
              emptyVLQ twoSteps namedOptions _ _ eq_refl eq_refl)
    as (H1 & H2 & _).
  split; [exact H1 | exact (H2 eq_refl)].
Defined.

Lemma finalize_map_iff_witness :
  finalize id (fun _ => "") unit rejectsBang extendsAll emptyVLQ
    {| Pipeline.contents := "let a: number = 1"; Pipeline.code := "let a = 1;";
       Pipeline.sourceMaps := [Some emptyMap; Some badMap];
       Pipeline.target := "es2020"; Pipeline.loader := "js" |} noOptions
  = Throw (OtherError "[parcel-sourcemap] invalid mappings") /\
  exists result,
    finalize id (fun _ => "") unit rejectsBang extendsAll emptyVLQ
             twoSteps noOptions = Return result /\
    TransformResult.map result <> None.
Proof.
  split.
  - apply (proj2 (finalize_map_iff id (fun _ => "") unit rejectsBang
                    extendsAll emptyVLQ _ noOptions)).
    split; [|reflexivity].
    split; [simpl; lia |]. split; [discriminate |].
    split; [reflexivity | discriminate].
  - eexists. split; [reflexivity |].
    apply (proj1 (finalize_map_iff id (fun _ => "") unit rejectsBang
                    extendsAll emptyVLQ twoSteps noOptions) _ eq_refl).
    split; [simpl; lia |]. split; [discriminate |].
    split; [reflexivity | discriminate].
Defined.

(** A pipeline that starts without a map and goes through one step is
    finalized with a null map, whatever the step did and whatever the
    options: the map of a single step is not returned. *)
Theorem finalize_single_step
  (base64 : string -> string) (JSON_stringify : SourceMap.t -> string)
  (MapNode : Type) (addVLQMap : SourceMap.t -> completion MapNode)
  (extends : MapNode -> MapNode -> completion MapNode)
  (toVLQ : MapNode -> completion SourceMap.t)
  (pipeline pipeline' : Pipeline.t) (stepOptions options : TransformOptions.t)
  (callback : TransformCallack) :
  Pipeline.sourceMaps pipeline = [] ->
  pipe pipeline stepOptions callback = Return pipeline' ->
  exists result,
    finalize base64 JSON_stringify MapNode addVLQMap extends toVLQ
             pipeline' options = Return result /\
    TransformResult.map result = None /\
    TransformResult.code result = Pipeline.code pipeline'.
Proof.
  intros Hm Hp.
  destruct (pipe_inv _ _ _ _ Hp) as (result & _ & ->).
  destruct (update_frame pipeline result) as (_ & added & Ha & Hl).
  eexists. rewrite finalize_early; [repeat split |].
  left. rewrite Ha, Hm. simpl. lia.
Qed.

Lemma finalize_single_step_witness :
  exists result,
    finalize id (fun _ => "") unit acceptsAll extendsAll emptyVLQ
      (update samplePipeline
         {| TransformResult.code := "let a: number = 1;";
            TransformResult.map := Some emptyMap;
            TransformResult.loader := None;
            TransformResult.target := None |}) noOptions = Return result /\
    TransformResult.map result = None /\
    TransformResult.code result = "let a: number = 1;".
Proof.
  exact (finalize_single_step id (fun _ => "") unit acceptsAll extendsAll
           emptyVLQ samplePipeline _ noOptions noOptions appendSemicolon
           eq_refl eq_refl).
Defined.

(** A pipeline is always created, whatever the input and whatever reading
    and parsing do; it keeps the contents, its code is a prefix of them
    (loading only cuts), it starts with at most one map, its loader is
    [ts] or [tsx], and [ts] only for a source whose name ends in [.ts],
    which then has the target [typescript]. *)
Theorem createPipeline_returns
  (JSON_parse : string -> completion (option SourceMap.t))
  (base64 : string -> string)
  (readFile : string -> completion string)
  (path_resolve : string -> string -> string)
  (contents : string) (source : option string) :
  exists pipeline,
    createPipeline JSON_parse base64 readFile path_resolve contents source
    = Return pipeline /\
    Pipeline.contents pipeline = contents /\
    (exists rest, contents = Pipeline.code pipeline +:+ rest) /\
    length (Pipeline.sourceMaps pipeline) <= 1 /\
    (Pipeline.loader pipeline = "ts" \/ Pipeline.loader pipeline = "tsx") /\
    (Pipeline.loader pipeline = "ts" ->
     Pipeline.target pipeline = "typescript" /\
     exists name, source = Some name /\ endsWith name ".ts" = true).
Proof.
  destruct (createPipeline_spec JSON_parse base64 readFile path_resolve
              contents source) as (p & Hp & Hc & Hcode & Hlen).
  exists p. split; [exact Hp |]. split; [exact Hc |].
  split; [rewrite Hcode; apply splitMarker_prefix |].
  split; [exact Hlen |].
  unfold createPipeline in Hp.
  destruct (loadSourcemap _ _ _ _ contents source) as [loaded|e];
    simpl in Hp; [|discriminate].
  injection Hp as <-. simpl. unfold isTs, isTypeScript.
  destruct source as [name|]; [|split; [now right | discriminate]].
  destruct (truthy (Some name)); simpl;
    [|split; [now right | discriminate]].
  destruct (endsWith name ".ts") eqn:E; simpl.
  - split; [now left |]. intros _. split; [reflexivity | eauto].
  - split; [now right | discriminate].
Qed.

Section Loading.
Variable JSON_parse : string -> completion (option SourceMap.t).
Variable base64 : string -> string.
Variable readFile : string -> completion string.
Variable path_resolve : string -> string -> string.

Local Abbreviation load :=
  (loadSourcemap JSON_parse base64 readFile path_resolve).

Lemma loadSourcemap_split contents filePath code mapUrl :
  splitMarker contents = (code, mapUrl) ->
  load contents filePath
  = (early ← match mapUrl with
             | Some mapUrl' =>
                 if truthy mapUrl then
                   try_catch
                     (loadSourcemapTry JSON_parse base64 readFile path_resolve
                        code mapUrl' filePath)
                     (fun _ => Return None)
                 else Return None
             | None => Return None
             end;
     match early with
     | Some r => Return r
     | None => Return {| Transform.code := code; Transform.map := None |}
     end).
Proof. intros H. unfold loadSourcemap. now rewrite H. Qed.
End Loading.

(** A text without a source-map comment is loaded as its own code, less
    the white space at its end, with a null map; nothing is read and
    nothing is parsed. *)
Theorem loadSourcemap_no_comment
  (JSON_parse : string -> completion (option SourceMap.t))
  (base64 : string -> string)
  (readFile : string -> completion string)
  (path_resolve : string -> string -> string)
  (contents : string) (filePath : option string) :
  snd (cutMarker (trimEnd contents)) = None ->
  loadSourcemap JSON_parse base64 readFile path_resolve contents filePath
  = Return {| Transform.code := trimEnd contents; Transform.map := None |}.
Proof.
  intros H. pose proof (cutMarker_None _ H) as Hc.
  assert (Hs : splitMarker contents = (trimEnd contents, None)).
  { unfold splitMarker.
    destruct (cutMarker (trimEnd contents)) as [code o]. simpl in *.
    now subst. }
  now rewrite (loadSourcemap_split _ _ _ _ _ _ _ _ Hs).
Qed.

Lemma loadSourcemap_no_comment_witness :
  loadSourcemap noParse id noFile besides
    ("a { color: red }" +:+ newline +:+ newline) (Some "src/a.css")
  = Return {| Transform.code := trimEnd ("a { color: red }" +:+ newline
                                           +:+ newline);
              Transform.map := None |}.
Proof.
  apply (loadSourcemap_no_comment noParse id noFile besides
           ("a { color: red }" +:+ newline +:+ newline) (Some "src/a.css")).
  reflexivity.
Defined.

(** A comment that names a map file: with the path of the source, the map
    is read next to the source and, when it parses, it is the map that is
    returned and the one map the pipeline starts with; without the path of
    the source, no file is read and the map is null. *)
Theorem loadSourcemap_map_file
  (JSON_parse : string -> completion (option SourceMap.t))
  (base64 : string -> string)
  (readFile : string -> completion string)
  (path_resolve : string -> string -> string)
  (contents code mapUrl : string) :
  splitMarker contents = (code, Some mapUrl) ->
  mapUrl <> "" -> startsWith mapUrl "data:" = false ->
  (forall file content parsed,
      file <> "" ->
      readFile (path_resolve (path.dirname file) mapUrl) = Return content ->
      JSON_parse content = Return (Some parsed) ->
      loadSourcemap JSON_parse base64 readFile path_resolve contents
                    (Some file)
      = Return {| Transform.code := code; Transform.map := Some parsed |} /\
      exists pipeline,
        createPipeline JSON_parse base64 readFile path_resolve contents
                       (Some file) = Return pipeline /\
        Pipeline.code pipeline = code /\
        Pipeline.sourceMaps pipeline = [Some parsed]) /\
  (forall filePath,
      truthy filePath = false ->
      loadSourcemap JSON_parse base64 readFile path_resolve contents filePath
      = Return {| Transform.code := code; Transform.map := None |}).
Proof.
  intros Hs Hne Hd. split.
  - intros file content parsed Hf Hr Hp.
    assert (Hl : loadSourcemap JSON_parse base64 readFile path_resolve
                   contents (Some file)
                 = Return {| Transform.code := code;
                             Transform.map := Some parsed |}).
    { rewrite (loadSourcemap_split _ _ _ _ _ _ _ _ Hs).
      rewrite (proj2 (truthy_Some mapUrl) Hne).
      unfold loadSourcemapTry, parseSourcemap.
      rewrite Hd, (proj2 (truthy_Some file) Hf), Hr. simpl. rewrite Hp.
      reflexivity. }
    split; [exact Hl |]. unfold createPipeline. rewrite Hl. simpl.
    eexists. split; [reflexivity |]. split; reflexivity.
  - intros filePath Hf.
    rewrite (loadSourcemap_split _ _ _ _ _ _ _ _ Hs).
    rewrite (proj2 (truthy_Some mapUrl) Hne).
    unfold loadSourcemapTry. rewrite Hd.
    destruct filePath as [file|]; [|reflexivity]. now rewrite Hf.
Qed.

(** A file system with one map file, and a parser that accepts it. *)
Definition oneMapFile (file : string) : completion string :=
  if String.eqb file "src/a.css.map" then Return "{}" else Throw IOError.
Definition parsesAll (text : string) : completion (option SourceMap.t) :=
  Return (Some emptyMap).

Lemma loadSourcemap_map_file_witness :
  loadSourcemap parsesAll id oneMapFile besides withFileMap (Some "src/a.css")
  = Return {| Transform.code := "a{}"; Transform.map := Some emptyMap |} /\
  loadSourcemap parsesAll id oneMapFile besides withFileMap None
  = Return {| Transform.code := "a{}"; Transform.map := None |}.
Proof.
  destruct (loadSourcemap_map_file parsesAll id oneMapFile besides
              withFileMap "a{}" "a.css.map" eq_refl ltac:(discriminate)
              eq_refl) as [H1 H2].
  split.
  - apply (H1 "src/a.css" "{}" emptyMap); [discriminate | reflexivity..].
  - apply H2. reflexivity.
Defined.

(** *** Loading what [inlineSourcemap] wrote *)

Lemma prefix_nil s : String.prefix "" s = true.
Proof. now destruct s. Qed.

Lemma prefix_cons a b s t :
  String.prefix (String a s) (String b t) = Ascii.eqb a b && String.prefix s t.
Proof.
  simpl. destruct (ascii_dec a b) as [->|Hne].
  - now rewrite Ascii.eqb_refl.
  - apply Ascii.eqb_neq in Hne. now rewrite Hne.
Qed.

Lemma prefix_app p s : String.prefix p (p +:+ s) = true.
Proof.
  induction p as [|a p IH]; rewrite ?app_cons, ?app_nil; [apply prefix_nil |].
  now rewrite prefix_cons, Ascii.eqb_refl.
Qed.

(** A pattern without [c] that is no prefix of [s] is no prefix of [s]
    continued with [c]. *)
Lemma prefix_continued c p : forall s u,
  includes c p = false -> String.prefix p s = false ->
  String.prefix p (s +:+ String c u) = false.
Proof.
  induction p as [|x p IH]; intros s u Hc Hp.
  - now rewrite prefix_nil in Hp.
  - simpl in Hc. destruct (Ascii.eqb x c) eqn:Ex; [discriminate |].
    destruct s as [|b s]; rewrite ?app_cons, ?app_nil.
    + now rewrite prefix_cons, Ex.
    + rewrite prefix_cons in *.
      destruct (Ascii.eqb x b); [|reflexivity].
      rewrite andb_true_l in *. now apply IH.
Qed.

(** The start of a source-map comment: a line feed followed by [//#]. *)
Definition commentHead : string := newline +:+ "//#".

(** Some position of [s] starts a source-map comment. *)
Fixpoint commentStarts (s : string) : bool :=
  String.prefix commentHead s
  || match s with
     | String _ s' => commentStarts s'
     | EmptyString => false
     end.

Lemma matchMarker_no_head s :
  String.prefix commentHead s = false -> matchMarker s = None.
Proof. unfold matchMarker. fold commentHead. now intros ->. Qed.

Lemma commentHead_continued a s u :
  String.prefix commentHead (String a s) = false ->
  String.prefix commentHead (String a (s +:+ String "010" u)) = false.
Proof.
  unfold commentHead, newline. rewrite ?app_cons, ?app_nil.
  rewrite !(prefix_cons "010").
  destruct (Ascii.eqb "010" a); [|reflexivity]. rewrite !andb_true_l.
  now apply prefix_continued.
Qed.

Lemma cutMarker_app code u :
  commentStarts code = false ->
  cutMarker (code +:+ String "010" u)
  = (code +:+ fst (cutMarker (String "010" u)),
     snd (cutMarker (String "010" u))).
Proof.
  induction code as [|a code IH]; intros H.
  - rewrite app_nil. now destruct (cutMarker (String "010" u)).
  - cbn [commentStarts] in H. apply orb_false_iff in H as [Hh Hs].
    rewrite app_cons, cutMarker_eq.
    rewrite (matchMarker_no_head _ (commentHead_continued _ _ _ Hh)).
    now rewrite (IH Hs).
Qed.

Lemma cutMarker_no_newline s :
  includes "010" s = false -> cutMarker s = (s, None).
Proof.
  induction s as [|a s IH]; intros H; rewrite cutMarker_eq.
  - reflexivity.
  - simpl in H. destruct (Ascii.eqb a "010") eqn:E; [discriminate |].
    rewrite matchMarker_no_head.
    + now rewrite (IH H).
    + unfold commentHead, newline. rewrite ?app_cons, ?app_nil.
      now rewrite prefix_cons, Ascii.eqb_sym, E.
Qed.

Lemma dropChars_app p s : dropChars (String.length p) (p +:+ s) = s.
Proof. unfold dropChars. apply EmitSetupFacts.substring_app_r. Qed.

Lemma matchMarker_comment rest :
  matchMarker (newline +:+ "//# sourceMappingURL=" +:+ rest) = Some rest.
Proof.
  unfold matchMarker. fold commentHead.
  change (newline +:+ "//# sourceMappingURL=" +:+ rest)
    with (commentHead +:+ " sourceMappingURL=" +:+ rest).
  rewrite prefix_app, !dropChars_app.
  change (dropSpaces (" sourceMappingURL=" +:+ rest))
    with ("sourceMappingURL=" +:+ rest).
  now rewrite prefix_app, dropChars_app.
Qed.

Lemma includes_forallb (q : ascii -> bool) c s :
  forallb q (path.chars s) = true -> q c = false -> includes c s = false.
Proof.
  intros H Hc. induction s as [|a s IH]; simpl in *; [reflexivity |].
  apply andb_true_iff in H as [Ha Hs].
  destruct (Ascii.eqb_spec a c) as [->|_]; [congruence | now apply IH].
Qed.

(** A one-byte character that is no white space. *)
Definition plain (a : ascii) : bool :=
  Nat.ltb (nat_of_ascii a) 128 && negb (isSpace a).

(** No white space ends in a plain character. *)
Lemma dropSpacesEnd_plain a l :
  plain a = true -> dropSpacesEnd (a :: l) = a :: l.
Proof.
  unfold plain. intros H. apply andb_true_iff in H as [Hlt Hs].
  apply Nat.ltb_lt in Hlt. apply negb_true_iff in Hs.
  cbn [dropSpacesEnd]. rewrite Hs.
  destruct l as [|b l2]; [reflexivity |].
  assert (H2 : isSpace2 b a = false).
  { unfold isSpace2. replace (Nat.eqb (nat_of_ascii a) 160) with false
      by (symmetry; apply Nat.eqb_neq; lia).
    apply andb_false_r. }
  rewrite H2. destruct l2 as [|c l3]; [reflexivity |].
  assert (H3 : isSpace3 c b a = false).
  { unfold isSpace3. cbv zeta.
    replace (Nat.leb 128 (nat_of_ascii a)) with false
      by (symmetry; apply Nat.leb_gt; lia).
    replace (Nat.eqb (nat_of_ascii a) 128) with false
      by (symmetry; apply Nat.eqb_neq; lia).
    replace (Nat.eqb (nat_of_ascii a) 168) with false
      by (symmetry; apply Nat.eqb_neq; lia).
    replace (Nat.eqb (nat_of_ascii a) 169) with false
      by (symmetry; apply Nat.eqb_neq; lia).
    replace (Nat.eqb (nat_of_ascii a) 175) with false
      by (symmetry; apply Nat.eqb_neq; lia).
    replace (Nat.eqb (nat_of_ascii a) 159) with false
      by (symmetry; apply Nat.eqb_neq; lia).
    replace (Nat.eqb (nat_of_ascii a) 191) with false
      by (symmetry; apply Nat.eqb_neq; lia).
    now rewrite !andb_false_r. }
  now rewrite H3.
Qed.

Lemma trimEnd_keep s t :
  t <> "" -> forallb plain (path.chars t) = true ->
  trimEnd (s +:+ t) = s +:+ t.
Proof.
  intros Hne Hf. unfold trimEnd. rewrite chars_app.
  destruct (path.chars t) as [|a l] eqn:E using rev_ind.
  - apply (f_equal path.text) in E. rewrite text_chars in E. now subst.
  - clear IHl. rewrite forallb_app in Hf.
    apply andb_true_iff in Hf as [_ Ha]. simpl in Ha.
    rewrite andb_true_r in Ha.
    rewrite app_assoc, rev_unit, (dropSpacesEnd_plain _ _ Ha).
    rewrite <- rev_unit, rev_involutive, <- app_assoc, <- E.
    now rewrite <- chars_app, text_chars.
Qed.

(** A one-byte character that is neither white space nor a comma: what a
    base64 text is made of. *)
Definition compact (a : ascii) : bool :=
  plain a && negb (Ascii.eqb a ",").

(** Loading the text [inlineSourcemap] wrote gives the code back, for a
    code that holds no start of a source-map comment. The payload of the
    comment is not decoded: what is parsed is its base64 text encoded once
    more, so the map that comes back is whatever that parses to, and null
    when it does not parse. *)
Theorem loadSourcemap_inlineSourcemap
  (JSON_parse : string -> completion (option SourceMap.t))
  (base64 : string -> string)
  (readFile : string -> completion string)
  (path_resolve : string -> string -> string)
  (JSON_stringify : SourceMap.t -> string)
  (code : string) (sourceMap : SourceMap.t) (filePath : option string) :
  commentStarts code = false ->
  forallb compact (path.chars (base64 (JSON_stringify sourceMap))) = true ->
  loadSourcemap JSON_parse base64 readFile path_resolve
    (inlineSourcemap base64 JSON_stringify code sourceMap) filePath
  = Return {| Transform.code := code;
              Transform.map :=
                match JSON_parse (base64 (base64 (JSON_stringify sourceMap)))
                with
                | Return parsed => parsed
                | Throw _ => None
                end |}.
Proof.
  intros Hcode Hpay. set (payload := base64 (JSON_stringify sourceMap)) in *.
  set (rest := "data:application/json;base64," +:+ payload).
  assert (Hnl : includes "010" payload = false)
    by (apply (includes_forallb compact); [exact Hpay | reflexivity]).
  assert (Hcomma : includes "," payload = false)
    by (apply (includes_forallb compact); [exact Hpay | reflexivity]).
  assert (Hsp : forallb plain (path.chars ("," +:+ payload)) = true).
  { rewrite chars_app, forallb_app. apply andb_true_iff.
    split; [reflexivity |].
    clear -Hpay. induction (path.chars payload) as [|a l IH];
      [reflexivity |].
    simpl in *. apply andb_true_iff in Hpay as [Ha Hl].
    apply andb_true_iff in Ha as [Ha _]. now rewrite Ha, (IH Hl). }
  assert (Hsplit : splitMarker (inlineSourcemap base64 JSON_stringify code
                                  sourceMap) = (code, Some rest)).
  { unfold splitMarker, inlineSourcemap. fold payload.
    change (code +:+ newline
              +:+ "//# sourceMappingURL=data:application/json;base64,"
              +:+ payload)
      with (code +:+ (newline
              +:+ "//# sourceMappingURL=data:application/json;base64")
              +:+ "," +:+ payload).
    rewrite <- append_assoc, trimEnd_keep by (exact Hsp || discriminate).
    rewrite append_assoc.
    change ((newline +:+ "//# sourceMappingURL=data:application/json;base64")
              +:+ "," +:+ payload)
      with (String "010" ("//# sourceMappingURL=" +:+ rest)).
    rewrite (cutMarker_app _ _ Hcode).
    rewrite (cutMarker_eq (String "010" ("//# sourceMappingURL=" +:+ rest))).
    change (String "010" ("//# sourceMappingURL=" +:+ rest))
      with (newline +:+ "//# sourceMappingURL=" +:+ rest).
    rewrite matchMarker_comment. cbn [fst snd]. rewrite append_nil_r.
    rewrite cutMarker_no_newline; [reflexivity |].
    unfold rest. rewrite includes_app, Hnl. reflexivity. }
  rewrite (loadSourcemap_split _ _ _ _ _ _ _ _ Hsplit).
  replace (truthy (Some rest)) with true by reflexivity.
  unfold loadSourcemapTry, parseSourcemap.
  replace (startsWith rest "data:") with true
    by (symmetry; apply (prefix_app "data:")).
  change rest with ("data:application/json;base64" +:+ String "," payload).
  rewrite split_app, (split_single _ _ Hcomma).
  change (("data:application/json;base64" +:+ String "," payload))
    with rest.
  replace (split "," "data:application/json;base64")
    with ["data:application/json;base64"] by (vm_compute; reflexivity).
  change ((["data:application/json;base64"] ++ [payload]) !! 1)
    with (Some payload).
  unfold mbind, completion_bind. cbv beta iota.
  destruct (JSON_parse (base64 payload)); reflexivity.
Qed.

Lemma loadSourcemap_inlineSourcemap_witness :
  loadSourcemap parsesAll (fun _ => "e30=") noFile besides
    (inlineSourcemap (fun _ => "e30=") (fun _ => "{}") "a{}" emptyMap) None
  = Return {| Transform.code := "a{}"; Transform.map := Some emptyMap |}.
Proof.
  exact (loadSourcemap_inlineSourcemap parsesAll (fun _ => "e30=") noFile
           besides (fun _ => "{}") "a{}" emptyMap None eq_refl eq_refl).
Defined.

End PipelineMore.
